(** * BusTub buffer pool: LRU replacer, pool instance, parallel pool

    A shallow embedding of
      - src/buffer/lru_replacer.cpp
      - src/buffer/buffer_pool_manager_instance.cpp
      - src/buffer/parallel_buffer_pool_manager.cpp
    Every member function becomes a function from the object's state (and
    the shared disk manager) to its result and the new state.  A returned
    [Page *] is the index of the frame in [pages_], [nullptr] is [None]. *)

From Stdlib Require Import ZArith.
From Stdlib.Strings Require Import Byte.
From stdpp Require Import base numbers option list gmap.

(** ** Shared types (common/config.h and storage/page/page.h) *)

(** Modelled from the spec: [page_id_t], [frame_id_t], [INVALID_PAGE_ID] and
    [PAGE_SIZE] are declared in common/config.h, which is not part of the
    sources.  The spec gives a page-id as an integer with the sentinel -1, a
    frame-id as a non-negative index below the pool size, and a page of 4096
    bytes. *)
Abbreviation page_id_t := Z (only parsing).
Abbreviation frame_id_t := nat (only parsing).

Definition INVALID_PAGE_ID : page_id_t := (-1)%Z.
Definition PAGE_SIZE : nat := 4096.

(** The buffer [memset] leaves behind. *)
Definition zeroed : list byte := repeat x00 PAGE_SIZE.

(** Modelled from the spec: class [Page] (storage/page/page.h) is not part of
    the sources.  The spec gives a frame as a byte buffer with the metadata
    [page_id], [pin_count] and [is_dirty]; [ResetMemory] zeroes the buffer and
    a fresh [Page] is zeroed, invalid, unpinned and clean.  [pin_count_] is
    an unbounded integer here: the model has no overflow of the C++ [int]. *)
Record Page := mkPage {
  data_ : list byte;
  page_id_ : page_id_t;
  pin_count_ : Z;
  is_dirty_ : bool
}.

Definition new_Page : Page := mkPage zeroed INVALID_PAGE_ID 0%Z false.

Global Instance Page_inhabited : Inhabited Page := populate new_Page.

Definition ResetMemory (p : Page) : Page :=
  mkPage zeroed (page_id_ p) (pin_count_ p) (is_dirty_ p).

Definition set_data (x : list byte) (p : Page) : Page :=
  mkPage x (page_id_ p) (pin_count_ p) (is_dirty_ p).
Definition set_page_id (x : Z) (p : Page) : Page :=
  mkPage (data_ p) x (pin_count_ p) (is_dirty_ p).
Definition set_pin_count (x : Z) (p : Page) : Page :=
  mkPage (data_ p) (page_id_ p) x (is_dirty_ p).
Definition set_is_dirty (x : bool) (p : Page) : Page :=
  mkPage (data_ p) (page_id_ p) (pin_count_ p) x.

(** ** The disk collaborator *)

(** The calls the pool issues, in the order it issues them. *)
Inductive disk_call :=
  | CallWritePage (pid : page_id_t) (buf : list byte)
  | CallReadPage (pid : page_id_t)
  | CallDeallocatePage (pid : page_id_t).

Record DiskManager := mkDisk {
  disk_pages : gmap Z (list byte);
  disk_calls : list disk_call
}.

(** Modelled from the spec: the disk manager is a collaborator outside the
    sources with [write_page(id, buf)] and [read_page(id, buf)]; what was
    written at a page-id is what a later read of that id returns.  A page
    never written leaves the caller's buffer as it was passed. *)
Definition WritePage (pid : page_id_t) (buf : list byte) (d : DiskManager) : DiskManager :=
  mkDisk (<[pid := buf]> (disk_pages d)) (disk_calls d ++ [CallWritePage pid buf]).

Definition ReadPage (pid : page_id_t) (buf : list byte) (d : DiskManager)
  : list byte * DiskManager :=
  (default buf (disk_pages d !! pid),
   mkDisk (disk_pages d) (disk_calls d ++ [CallReadPage pid])).

(** Modelled from the spec: [DeallocatePage] is declared in the header of the
    pool instance, which is not part of the sources; the spec words it as the
    call [disk.deallocate_page(page_id)], which stores nothing. *)
Definition DeallocatePage (pid : page_id_t) (d : DiskManager) : DiskManager :=
  mkDisk (disk_pages d) (disk_calls d ++ [CallDeallocatePage pid]).

(** ** lru_replacer.cpp *)

(** [replacer_] is the list of frame ids, front first.  [map_] sends a frame
    id to the list node that holds it; its keys are kept, and the node a key
    points to is the occurrence of that frame id in the list.
    [map_.erase(map_.find(f))] in [Victim] is undefined when [f] is no key;
    here it then leaves the keys alone. *)
Record LRUReplacer := mkLRU {
  max_pages_ : nat;
  replacer_ : list frame_id_t;
  map_ : gset frame_id_t
}.

Definition new_LRUReplacer (num_pages : nat) : LRUReplacer := mkLRU num_pages [] ∅.

(** [replacer_.erase(it)] for the node [it] that holds [f]. *)
Fixpoint list_erase (f : frame_id_t) (l : list frame_id_t) : list frame_id_t :=
  match l with
  | [] => []
  | x :: l' => if decide (x = f) then l' else x :: list_erase f l'
  end.

Definition Victim (r : LRUReplacer) : option frame_id_t * LRUReplacer :=
  match replacer_ r with
  | [] => (None, r)
  | f :: l => (Some f, mkLRU (max_pages_ r) l (map_ r ∖ {[f]}))
  end.

Definition Pin (f : frame_id_t) (r : LRUReplacer) : LRUReplacer :=
  if decide (f ∈ map_ r)
  then mkLRU (max_pages_ r) (list_erase f (replacer_ r)) (map_ r ∖ {[f]})
  else r.

Definition Unpin (f : frame_id_t) (r : LRUReplacer) : LRUReplacer :=
  if decide (f ∈ map_ r) then r
  else if decide (length (replacer_ r) < max_pages_ r)
       then mkLRU (max_pages_ r) (replacer_ r ++ [f]) (map_ r ∪ {[f]})
       else r.

Definition Size (r : LRUReplacer) : nat := length (replacer_ r).

(** ** buffer_pool_manager_instance.cpp *)

Record BufferPoolManagerInstance := mkBPI {
  pool_size_ : nat;
  num_instances_ : Z;
  instance_index_ : Z;
  next_page_id_ : page_id_t;
  pages_ : list Page;
  replacer : LRUReplacer;  (* the member [replacer_] *)
  free_list_ : list frame_id_t;
  page_table_ : gmap page_id_t frame_id_t
}.

Definition set_next_page_id (x : Z) (b : BufferPoolManagerInstance) :=
  mkBPI (pool_size_ b) (num_instances_ b) (instance_index_ b) x
        (pages_ b) (replacer b) (free_list_ b) (page_table_ b).
Definition set_pages (x : list Page) (b : BufferPoolManagerInstance) :=
  mkBPI (pool_size_ b) (num_instances_ b) (instance_index_ b) (next_page_id_ b)
        x (replacer b) (free_list_ b) (page_table_ b).
Definition set_replacer (x : LRUReplacer) (b : BufferPoolManagerInstance) :=
  mkBPI (pool_size_ b) (num_instances_ b) (instance_index_ b) (next_page_id_ b)
        (pages_ b) x (free_list_ b) (page_table_ b).
Definition set_free_list (x : list nat) (b : BufferPoolManagerInstance) :=
  mkBPI (pool_size_ b) (num_instances_ b) (instance_index_ b) (next_page_id_ b)
        (pages_ b) (replacer b) x (page_table_ b).
Definition set_page_table (x : gmap Z nat) (b : BufferPoolManagerInstance) :=
  mkBPI (pool_size_ b) (num_instances_ b) (instance_index_ b) (next_page_id_ b)
        (pages_ b) (replacer b) (free_list_ b) x.

(** The constructor.  Its two assertions ([num_instances > 0],
    [instance_index < num_instances]) are preconditions of the caller. *)
Definition new_BufferPoolManagerInstance
    (pool_size : nat) (num_instances instance_index : Z)
  : BufferPoolManagerInstance :=
  mkBPI pool_size num_instances instance_index instance_index
        (replicate pool_size new_Page) (new_LRUReplacer pool_size)
        (seq 0 pool_size) ∅.

(** [pages_[i]]; reading outside the array is undefined in the source and
    yields a fresh [Page] here. *)
Definition frame (b : BufferPoolManagerInstance) (i : nat) : Page := pages_ b !!! i.

Definition ValidatePageId (pid : page_id_t) (b : BufferPoolManagerInstance) : bool :=
  bool_decide ((pid mod num_instances_ b)%Z = instance_index_ b).

(** [AllocatePage].  [ValidatePageId] only asserts; the assertion holds on
    every state a client can reach ([ValidatePageId_reachable] below), so it
    is left out of the control flow. *)
Definition AllocatePage (b : BufferPoolManagerInstance)
  : page_id_t * BufferPoolManagerInstance :=
  (next_page_id_ b, set_next_page_id (next_page_id_ b + num_instances_ b)%Z b).

(** The counting loop that opens [NewPgImp]. *)
Definition is_pinned (p : Page) : bool :=
  bool_decide (page_id_ p ≠ INVALID_PAGE_ID) && bool_decide (pin_count_ p ≠ 0%Z).

Definition pinned_num (b : BufferPoolManagerInstance) : nat :=
  length (filter (λ i, is_pinned (frame b i) = true) (seq 0 (pool_size_ b))).

(** "find from free list or replace a page": the front of the free list,
    else the replacer's victim. *)
Definition pick_frame (b : BufferPoolManagerInstance)
  : option (frame_id_t * BufferPoolManagerInstance) :=
  match free_list_ b with
  | f :: rest => Some (f, set_free_list rest b)
  | [] =>
      match Victim (replacer b) with
      | (Some f, r) => Some (f, set_replacer r b)
      | (None, _) => None
      end
  end.

(** The loop over [page_table_] that stops at the first entry whose value is
    the frame: its key, if there is one.  The iteration order of the
    unordered map is the order of [map_to_list]. *)
Definition find_frame (f : nat) (pt : gmap Z nat) : option Z :=
  (λ r, r.2.1) <$> list_find (λ kv : Z * nat, kv.2 = f) (map_to_list pt).

Definition erase_frame (f : nat) (pt : gmap Z nat) : gmap Z nat :=
  match find_frame f pt with
  | Some pid => delete pid pt
  | None => pt
  end.

(** [page_table_.emplace(k, v)] inserts only when the key is absent. *)
Definition emplace (k : Z) (v : nat) (pt : gmap Z nat) : gmap Z nat :=
  match pt !! k with
  | Some _ => pt
  | None => <[k := v]> pt
  end.

(** The frame as [FlushPgImp], [FlushAllPgsImp] and [DeletePgImp] leave it. *)
Definition released (p : Page) : Page :=
  set_is_dirty false (set_pin_count 0%Z (set_page_id INVALID_PAGE_ID (ResetMemory p))).

(** The frame as [NewPgImp] and [FetchPgImp] set it up for [page_id], before
    the read from disk. *)
Definition installed (page_id : page_id_t) (p : Page) : Page :=
  ResetMemory (set_is_dirty false (set_pin_count 1%Z (set_page_id page_id p))).

Definition FlushPgImp (page_id : page_id_t) (b : BufferPoolManagerInstance) (d : DiskManager)
  : bool * BufferPoolManagerInstance * DiskManager :=
  match page_table_ b !! page_id with
  | None => (false, b, d)
  | Some frame_id =>
      if decide (page_id = INVALID_PAGE_ID) then (false, b, d)
      else
        let page := frame b frame_id in
        let d1 := if is_dirty_ page then WritePage page_id (data_ page) d else d in
        (true,
         set_free_list (free_list_ b ++ [frame_id])
           (set_pages (<[frame_id := released page]> (pages_ b))
              (set_page_table (delete page_id (page_table_ b)) b)),
         d1)
  end.

(** One round of the loop of [FlushAllPgsImp]. *)
Definition flush_item (acc : list Page * DiskManager) (item : Z * nat)
  : list Page * DiskManager :=
  let page : Page := acc.1 !!! item.2 in
  let d1 := if is_dirty_ page then WritePage item.1 (data_ page) acc.2 else acc.2 in
  (<[item.2 := released page]> acc.1, d1).

Definition FlushAllPgsImp (b : BufferPoolManagerInstance) (d : DiskManager)
  : BufferPoolManagerInstance * DiskManager :=
  let r := foldl flush_item (pages_ b, d) (map_to_list (page_table_ b)) in
  (set_free_list (seq 0 (pool_size_ b))
     (set_page_table ∅ (set_pages r.1 b)),
   r.2).

(** [NewPgImp].  [origin_id] is a local that is only assigned when the loop
    over the page table finds the victim; [junk] is the value it holds
    otherwise.  The result is the new page id and the frame. *)
Definition NewPgImp (junk : Z) (b : BufferPoolManagerInstance) (d : DiskManager)
  : option (page_id_t * frame_id_t) * BufferPoolManagerInstance * DiskManager :=
  if decide (pinned_num b = pool_size_ b) then (None, b, d)
  else
    match pick_frame b with
    | None => (None, b, d)
    | Some (victim_id, b1) =>
        let origin_id := default junk (find_frame victim_id (page_table_ b1)) in
        let b2 := set_page_table (erase_frame victim_id (page_table_ b1)) b1 in
        let page := frame b2 victim_id in
        let d1 := if is_dirty_ page then WritePage origin_id (data_ page) d else d in
        let '(page_id, b3) := AllocatePage b2 in
        let page1 := installed page_id page in
        let b4 := set_page_table (emplace page_id victim_id (page_table_ b3)) b3 in
        let '(buf, d2) := ReadPage page_id (data_ page1) d1 in
        let b5 := set_pages (<[victim_id := set_data buf page1]> (pages_ b4)) b4 in
        (Some (page_id, victim_id), set_replacer (Pin victim_id (replacer b5)) b5, d2)
    end.

Definition FetchPgImp (page_id : page_id_t) (b : BufferPoolManagerInstance) (d : DiskManager)
  : option frame_id_t * BufferPoolManagerInstance * DiskManager :=
  match page_table_ b !! page_id with
  | Some frame_id =>
      let page := frame b frame_id in
      let b1 := set_pages (<[frame_id := set_pin_count (pin_count_ page + 1)%Z page]> (pages_ b)) b in
      (Some frame_id, set_replacer (Pin frame_id (replacer b1)) b1, d)
  | None =>
      match pick_frame b with
      | None => (None, b, d)
      | Some (frame_id, b1) =>
          let page := frame b1 frame_id in
          let d1 := if is_dirty_ page then WritePage (page_id_ page) (data_ page) d else d in
          let b2 := set_page_table
                      (emplace page_id frame_id (erase_frame frame_id (page_table_ b1))) b1 in
          let page1 := installed page_id page in
          let '(buf, d2) := ReadPage page_id (data_ page1) d1 in
          let b3 := set_pages (<[frame_id := set_data buf page1]> (pages_ b2)) b2 in
          (Some frame_id, set_replacer (Pin frame_id (replacer b3)) b3, d2)
      end
  end.

Definition DeletePgImp (page_id : page_id_t) (b : BufferPoolManagerInstance) (d : DiskManager)
  : bool * BufferPoolManagerInstance * DiskManager :=
  let d0 := DeallocatePage page_id d in
  match page_table_ b !! page_id with
  | Some frame_id =>
      let page := frame b frame_id in
      if decide (pin_count_ page = 0%Z) then
        let d1 := if is_dirty_ page then WritePage page_id (data_ page) d0 else d0 in
        (true,
         set_free_list (free_list_ b ++ [frame_id])
           (set_page_table (delete page_id (page_table_ b))
              (set_pages (<[frame_id := released page]> (pages_ b)) b)),
         d1)
      else (false, b, d0)
  | None => (true, b, d0)
  end.

Definition UnpinPgImp (page_id : page_id_t) (is_dirty : bool)
    (b : BufferPoolManagerInstance) (d : DiskManager)
  : bool * BufferPoolManagerInstance * DiskManager :=
  match page_table_ b !! page_id with
  | Some frame_id =>
      let page := frame b frame_id in
      if decide (pin_count_ page > 0)%Z then
        let page1 := set_pin_count (pin_count_ page - 1)%Z page in
        let page2 := if is_dirty then set_is_dirty is_dirty page1 else page1 in
        let b1 := set_pages (<[frame_id := page2]> (pages_ b)) b in
        (true, set_replacer (Unpin frame_id (replacer b1)) b1, d)
      else (false, b, d)
  | None => (false, b, d)
  end.

(** ** parallel_buffer_pool_manager.cpp *)

(** The instances share one disk manager: every function below threads the
    same [DiskManager] through the instance it calls. *)
Module Parallel.

Record ParallelBufferPoolManager := mkPBPM {
  pool_size_ : nat;
  num_instances_ : nat;
  buffer_pool_manager_ : list BufferPoolManagerInstance
}.

Definition set_buffer_pool_manager (x : list BufferPoolManagerInstance)
    (p : ParallelBufferPoolManager) : ParallelBufferPoolManager :=
  mkPBPM (pool_size_ p) (num_instances_ p) x.

Definition new_ParallelBufferPoolManager (num_instances pool_size : nat)
  : ParallelBufferPoolManager :=
  let n := if decide (0 < num_instances) then num_instances else 1 in
  mkPBPM pool_size n
    (map (λ i, new_BufferPoolManagerInstance pool_size (Z.of_nat n) (Z.of_nat i))
         (seq 0 n)).

Definition GetPoolSize (p : ParallelBufferPoolManager) : nat :=
  pool_size_ p * num_instances_ p.

(** The loop of [NewPgImp]: the positions still to try, in order.
    [buffer_pool_manager_.at(pos)] throws outside the vector, which ends the
    call without a page. *)
Fixpoint NewPg_loop (junk : Z) (todo : list nat) (p : ParallelBufferPoolManager)
    (d : DiskManager)
  : option (nat * Z * nat) * ParallelBufferPoolManager * DiskManager :=
  match todo with
  | [] => (None, p, d)
  | i :: rest =>
      let pos := i mod num_instances_ p in
      match buffer_pool_manager_ p !! pos with
      | None => (None, p, d)
      | Some manager =>
          match NewPgImp junk manager d with
          | (Some (page_id, f), manager', d') =>
              (Some (pos, page_id, f),
               set_buffer_pool_manager (<[pos := manager']> (buffer_pool_manager_ p)) p,
               d')
          | (None, manager', d') =>
              NewPg_loop junk rest
                (set_buffer_pool_manager (<[pos := manager']> (buffer_pool_manager_ p)) p)
                d'
          end
      end
  end.

(** [for (size_t i = 0; i <= num_instances_; i++)].  The result is the shard
    that served the call, the new page id and the frame in that shard. *)
Definition NewPgImp (junk : Z) (p : ParallelBufferPoolManager) (d : DiskManager)
  : option (nat * Z * nat) * ParallelBufferPoolManager * DiskManager :=
  NewPg_loop junk (seq 0 (num_instances_ p + 1)) p d.

(** Modelled from the spec: the member [num_instances_] is declared in the
    header, which is not part of the sources; the spec routes a page to shard
    [page_id mod num_instances].  For a page id that is not negative this is
    the value of [page_id % num_instances_] whatever integer type the member
    has; the routing facts below are stated for such ids. *)
Definition pool_id (page_id : page_id_t) (p : ParallelBufferPoolManager) : nat :=
  Z.to_nat (page_id mod Z.of_nat (num_instances_ p)).

(** [buffer_pool_manager_.at(pool_id)]: [None] where [at] throws. *)
Definition GetBufferPoolManager (page_id : page_id_t) (p : ParallelBufferPoolManager)
  : option BufferPoolManagerInstance :=
  buffer_pool_manager_ p !! pool_id page_id p.

(** The vector holds pointers: the instance a call went to is changed in
    place. *)
Definition put_pool (page_id : page_id_t) (pool : BufferPoolManagerInstance)
    (p : ParallelBufferPoolManager) : ParallelBufferPoolManager :=
  set_buffer_pool_manager (<[pool_id page_id p := pool]> (buffer_pool_manager_ p)) p.

(** The four calls that go to the shard of the page id.  A fetched page is
    given as the shard and the frame in it. *)
Definition FetchPgImp (page_id : page_id_t) (p : ParallelBufferPoolManager)
    (d : DiskManager)
  : option (nat * frame_id_t) * ParallelBufferPoolManager * DiskManager :=
  match GetBufferPoolManager page_id p with
  | None => (None, p, d)
  | Some pool =>
      let o := FetchPgImp page_id pool d in
      ((λ f, (pool_id page_id p, f)) <$> o.1.1, put_pool page_id o.1.2 p, o.2)
  end.

Definition UnpinPgImp (page_id : page_id_t) (is_dirty : bool)
    (p : ParallelBufferPoolManager) (d : DiskManager)
  : bool * ParallelBufferPoolManager * DiskManager :=
  match GetBufferPoolManager page_id p with
  | None => (false, p, d)
  | Some pool =>
      let o := UnpinPgImp page_id is_dirty pool d in
      (o.1.1, put_pool page_id o.1.2 p, o.2)
  end.

Definition FlushPgImp (page_id : page_id_t) (p : ParallelBufferPoolManager)
    (d : DiskManager)
  : bool * ParallelBufferPoolManager * DiskManager :=
  match GetBufferPoolManager page_id p with
  | None => (false, p, d)
  | Some pool =>
      let o := FlushPgImp page_id pool d in
      (o.1.1, put_pool page_id o.1.2 p, o.2)
  end.

Definition DeletePgImp (page_id : page_id_t) (p : ParallelBufferPoolManager)
    (d : DiskManager)
  : bool * ParallelBufferPoolManager * DiskManager :=
  match GetBufferPoolManager page_id p with
  | None => (false, p, d)
  | Some pool =>
      let o := DeletePgImp page_id pool d in
      (o.1.1, put_pool page_id o.1.2 p, o.2)
  end.

(** [for (auto it : buffer_pool_manager_) it->FlushAllPages()]: the instances
    in order, each on the disk the previous one left. *)
Definition flush_shard (acc : list BufferPoolManagerInstance * DiskManager)
    (pool : BufferPoolManagerInstance)
  : list BufferPoolManagerInstance * DiskManager :=
  let o := FlushAllPgsImp pool acc.2 in (acc.1 ++ [o.1], o.2).

Definition FlushAllPgsImp (p : ParallelBufferPoolManager) (d : DiskManager)
  : ParallelBufferPoolManager * DiskManager :=
  let r := foldl flush_shard ([], d) (buffer_pool_manager_ p) in
  (set_buffer_pool_manager r.1 p, r.2).

End Parallel.

(** ** Request sequences *)

(** The calls a client makes on one pool instance. *)
Inductive request :=
  | FetchPage (page_id : page_id_t)
  | NewPage
  | UnpinPage (page_id : page_id_t) (is_dirty : bool)
  | FlushPage (page_id : page_id_t)
  | FlushAllPages
  | DeletePage (page_id : page_id_t).

Definition serve (junk : Z) (s : BufferPoolManagerInstance * DiskManager) (r : request)
  : BufferPoolManagerInstance * DiskManager :=
  match r with
  | FetchPage page_id => let o := FetchPgImp page_id s.1 s.2 in (o.1.2, o.2)
  | NewPage => let o := NewPgImp junk s.1 s.2 in (o.1.2, o.2)
  | UnpinPage page_id is_dirty =>
      let o := UnpinPgImp page_id is_dirty s.1 s.2 in (o.1.2, o.2)
  | FlushPage page_id => let o := FlushPgImp page_id s.1 s.2 in (o.1.2, o.2)
  | FlushAllPages => FlushAllPgsImp s.1 s.2
  | DeletePage page_id => let o := DeletePgImp page_id s.1 s.2 in (o.1.2, o.2)
  end.

Definition serve_all (junk : Z) (s : BufferPoolManagerInstance * DiskManager)
    (rs : list request) : BufferPoolManagerInstance * DiskManager :=
  foldl (serve junk) s rs.

(** A disk on which nothing was ever written. *)
Definition blank_disk : DiskManager := mkDisk ∅ [].

(** A single (non-sharded) pool of [n] frames on a blank disk. *)
Definition fresh (n : nat) : BufferPoolManagerInstance * DiskManager :=
  (new_BufferPoolManagerInstance n 1 0, blank_disk).

(** A disk whose page 0 holds 4096 bytes of value 1. *)
Definition disk_with_page0 : DiskManager :=
  mkDisk {[ 0%Z := repeat x01 PAGE_SIZE ]} [].

(** ** The representation invariant of a pool instance *)

(** The replacer's list has no frame twice and [map_] has exactly its frames
    as keys. *)
Definition LRU_wf (r : LRUReplacer) : Prop :=
  NoDup (replacer_ r) ∧ ∀ f, f ∈ map_ r ↔ f ∈ replacer_ r.

(** What every state built by the constructor and the six requests satisfies:
    the replacer is well formed, the frame array has [pool_size_] frames, the
    free list, the replacer and the page table only name frames of the array,
    a page-table entry names a frame that holds that page, and a dirty frame
    is the one the page table names for its page. *)
Record pool_wf (b : BufferPoolManagerInstance) : Prop := mk_pool_wf {
  wf_lru : LRU_wf (replacer b);
  wf_pages : length (pages_ b) = pool_size_ b;
  wf_free : ∀ f, f ∈ free_list_ b → f < pool_size_ b;
  wf_replacer : ∀ f, f ∈ replacer_ (replacer b) → f < pool_size_ b;
  wf_table : ∀ pid f, page_table_ b !! pid = Some f →
                      f < pool_size_ b ∧ page_id_ (frame b f) = pid;
  wf_dirty : ∀ f, is_dirty_ (frame b f) = true →
                  page_table_ b !! page_id_ (frame b f) = Some f
}.

(** What "a later fetch of [page_id] reads back [buf]" means on a state: the
    fetch returns a frame whose buffer is [buf], unless no frame can be had
    (free list and replacer both empty), in which case it returns none. *)
Definition fetch_reads_back (page_id : page_id_t) (buf : list byte)
    (b : BufferPoolManagerInstance) (d : DiskManager) : Prop :=
  let o := FetchPgImp page_id b d in
  (o.1.1 = None ∧ free_list_ b = [] ∧ replacer_ (replacer b) = [])
  ∨ (∃ frame_id, o.1.1 = Some frame_id ∧ data_ (frame o.1.2 frame_id) = buf).

(** The allocator's part of the state: the constructor's two assertions, and
    the next page id is one that [ValidatePageId] accepts. *)
Definition alloc_wf (b : BufferPoolManagerInstance) : Prop :=
  (0 < num_instances_ b)%Z
  ∧ (0 ≤ instance_index_ b < num_instances_ b)%Z
  ∧ ValidatePageId (next_page_id_ b) b = true.

(** ** Call sequences on the replacer *)

Inductive replacer_call :=
  | CallVictim
  | CallPin (frame_id : frame_id_t)
  | CallUnpin (frame_id : frame_id_t).

Definition replacer_step (r : LRUReplacer) (c : replacer_call) : LRUReplacer :=
  match c with
  | CallVictim => (Victim r).2
  | CallPin f => Pin f r
  | CallUnpin f => Unpin f r
  end.

Definition replacer_run (r : LRUReplacer) (cs : list replacer_call) : LRUReplacer :=
  foldl replacer_step r cs.

(** [n] calls of [Victim] in a row: the frames they hand out, up to the first
    call that finds the replacer empty. *)
Fixpoint drain (n : nat) (r : LRUReplacer) : list frame_id_t :=
  match n with
  | 0 => []
  | S n' =>
      match Victim r with
      | (Some f, r') => f :: drain n' r'
      | (None, _) => []
      end
  end.

(** ** Further invariants of a pool instance *)

(** The free list names no frame twice and no frame the page table maps to. *)
Definition free_wf (b : BufferPoolManagerInstance) : Prop :=
  NoDup (free_list_ b)
  ∧ ∀ pid f, page_table_ b !! pid = Some f → f ∉ free_list_ b.


Definition all_clean (b : BufferPoolManagerInstance) : Prop :=
  ∀ i, is_dirty_ (frame b i) = false.

(** A request that can set a dirty flag. *)
Definition marks_dirty (r : request) : bool :=
  match r with
  | UnpinPage _ true => true
  | _ => false
  end.

Definition is_write (c : disk_call) : bool :=
  match c with
  | CallWritePage _ _ => true
  | _ => false
  end.

(** ** Request sequences on the parallel pool *)

Definition parallel_serve (junk : Z)
    (s : Parallel.ParallelBufferPoolManager * DiskManager) (r : request)
  : Parallel.ParallelBufferPoolManager * DiskManager :=
  match r with
  | FetchPage page_id => let o := Parallel.FetchPgImp page_id s.1 s.2 in (o.1.2, o.2)
  | NewPage => let o := Parallel.NewPgImp junk s.1 s.2 in (o.1.2, o.2)
  | UnpinPage page_id is_dirty =>
      let o := Parallel.UnpinPgImp page_id is_dirty s.1 s.2 in (o.1.2, o.2)
  | FlushPage page_id => let o := Parallel.FlushPgImp page_id s.1 s.2 in (o.1.2, o.2)
  | FlushAllPages => Parallel.FlushAllPgsImp s.1 s.2
  | DeletePage page_id => let o := Parallel.DeletePgImp page_id s.1 s.2 in (o.1.2, o.2)
  end.

Definition parallel_serve_all (junk : Z)
    (s : Parallel.ParallelBufferPoolManager * DiskManager) (rs : list request)
  : Parallel.ParallelBufferPoolManager * DiskManager :=
  foldl (parallel_serve junk) s rs.

(** A request whose page id, if it has one, is not negative. *)
Definition id_nonneg (r : request) : Prop :=
  match r with
  | FetchPage page_id | UnpinPage page_id _ | FlushPage page_id | DeletePage page_id =>
      (0 ≤ page_id)%Z
  | NewPage | FlushAllPages => True
  end.

(** The instance at position [k] of [N]: it is well formed, has [pool_size]
    frames, knows its position and the number of instances, allocates ids that
    are not negative and congruent to [k], and holds only such pages. *)
Definition shard_ok (pool_size N k : nat) (m : BufferPoolManagerInstance) : Prop :=
  pool_wf m
  ∧ pool_size_ m = pool_size
  ∧ num_instances_ m = Z.of_nat N
  ∧ instance_index_ m = Z.of_nat k
  ∧ (0 ≤ next_page_id_ m)%Z
  ∧ (next_page_id_ m mod Z.of_nat N)%Z = Z.of_nat k
  ∧ ∀ pid f, page_table_ m !! pid = Some f →
             (0 ≤ pid)%Z ∧ (pid mod Z.of_nat N)%Z = Z.of_nat k.

(** What the constructor sets up and requests with ids that are not negative
    keep: the vector has [num_instances_] instances, at least one, each in
    order at its position. *)
Definition shards_wf (p : Parallel.ParallelBufferPoolManager) : Prop :=
  0 < Parallel.num_instances_ p
  ∧ length (Parallel.buffer_pool_manager_ p) = Parallel.num_instances_ p
  ∧ ∀ k m, Parallel.buffer_pool_manager_ p !! k = Some m →
           shard_ok (Parallel.pool_size_ p) (Parallel.num_instances_ p) k m.

(** ** Frames, lists and the replacer *)

Lemma frame_insert_eq (b : BufferPoolManagerInstance) (f : nat) (p : Page) :
  f < length (pages_ b) → frame (set_pages (<[f := p]> (pages_ b)) b) f = p.
Proof.
  intros Hf. unfold frame, set_pages; simpl.
  apply list_lookup_total_correct. by apply list_lookup_insert_eq.
Qed.

Lemma frame_insert_ne (b : BufferPoolManagerInstance) (f g : nat) (p : Page) :
  f ≠ g → frame (set_pages (<[f := p]> (pages_ b)) b) g = frame b g.
Proof.
  intros Hne. unfold frame, set_pages; simpl.
  by rewrite list_lookup_total_insert_ne.
Qed.

Lemma frame_after_insert (b b' : BufferPoolManagerInstance) (f g : nat) (p : Page) :
  pages_ b' = <[f := p]> (pages_ b) →
  f < length (pages_ b) →
  frame b' g = if decide (g = f) then p else frame b g.
Proof.
  intros Hpages Hlt. unfold frame. rewrite Hpages.
  destruct (decide (g = f)) as [->|Hne].
  - by apply list_lookup_total_insert_eq.
  - by apply list_lookup_total_insert_ne.
Qed.

Lemma list_erase_subset (f x : nat) (l : list nat) : x ∈ list_erase f l → x ∈ l.
Proof.
  induction l as [|y l IH]; simpl; [done|].
  destruct (decide (y = f)) as [_|_]; intros Hx.
  - by apply elem_of_cons; right.
  - apply elem_of_cons in Hx. apply elem_of_cons.
    destruct Hx as [Hx|Hx]; [by left|right; by apply IH].
Qed.

Lemma list_erase_NoDup (f : nat) (l : list nat) : NoDup l → NoDup (list_erase f l).
Proof.
  induction l as [|y l IH]; simpl; [done|].
  intros Hnd. apply NoDup_cons in Hnd. destruct Hnd as [Hy Hnd].
  destruct (decide (y = f)) as [_|_]; [done|].
  apply NoDup_cons. split; [|by apply IH].
  intros Hin. apply Hy. by apply list_erase_subset in Hin.
Qed.

Lemma list_erase_elem (f x : nat) (l : list nat) :
  NoDup l → x ∈ list_erase f l ↔ x ∈ l ∧ x ≠ f.
Proof.
  induction l as [|y l IH]; simpl; intros Hnd.
  { split; [intros Hx|intros [Hx _]]; by apply elem_of_nil in Hx. }
  apply NoDup_cons in Hnd. destruct Hnd as [Hy Hnd].
  destruct (decide (y = f)) as [->|Hne].
  - rewrite elem_of_cons. split.
    + intros Hx. split; [by right|]. by intros ->.
    + intros [[->|Hx] Hxf]; done.
  - rewrite !elem_of_cons, (IH Hnd). split.
    + intros [->|[Hx Hxf]]; [by split; [left|]|by split; [right|]].
    + intros [[->|Hx] Hxf]; [by left|by right].
Qed.

Lemma Pin_subset (f x : nat) (r : LRUReplacer) :
  x ∈ replacer_ (Pin f r) → x ∈ replacer_ r.
Proof.
  unfold Pin. destruct (decide (f ∈ map_ r)); simpl; [|done].
  apply list_erase_subset.
Qed.

Lemma Unpin_elem (f x : nat) (r : LRUReplacer) :
  x ∈ replacer_ (Unpin f r) → x ∈ replacer_ r ∨ x = f.
Proof.
  unfold Unpin. destruct (decide (f ∈ map_ r)); [by left|].
  destruct (decide (length (replacer_ r) < max_pages_ r)); simpl; [|by left].
  rewrite elem_of_app, list_elem_of_singleton. tauto.
Qed.

(** The replacer's own invariant: [map_] and [replacer_] stay in step. *)
Lemma LRU_wf_new (num_pages : nat) : LRU_wf (new_LRUReplacer num_pages).
Proof.
  split; simpl; [apply NoDup_nil_2|].
  intros f. split; intros Hf; [by apply elem_of_empty in Hf|by apply elem_of_nil in Hf].
Qed.

Lemma LRU_wf_Victim (r : LRUReplacer) : LRU_wf r → LRU_wf (Victim r).2.
Proof.
  intros [Hnd Hmap]. unfold Victim.
  destruct (replacer_ r) as [|f l] eqn:E; simpl; [by split; rewrite ?E|].
  apply NoDup_cons in Hnd. destruct Hnd as [Hf Hnd].
  split; simpl; [done|].
  intros g. rewrite elem_of_difference, elem_of_singleton, Hmap, elem_of_cons.
  split.
  - intros [[->|Hg] Hne]; done.
  - intros Hg. split; [by right|]. by intros ->.
Qed.

Lemma LRU_wf_Pin (f : nat) (r : LRUReplacer) : LRU_wf r → LRU_wf (Pin f r).
Proof.
  intros [Hnd Hmap]. unfold Pin.
  destruct (decide (f ∈ map_ r)); [|by split].
  split; simpl; [by apply list_erase_NoDup|].
  intros g. rewrite elem_of_difference, elem_of_singleton, Hmap.
  by rewrite list_erase_elem.
Qed.

Lemma LRU_wf_Unpin (f : nat) (r : LRUReplacer) : LRU_wf r → LRU_wf (Unpin f r).
Proof.
  intros [Hnd Hmap]. unfold Unpin.
  destruct (decide (f ∈ map_ r)) as [Hin|Hout]; [by split|].
  destruct (decide (length (replacer_ r) < max_pages_ r)); [|by split].
  split; simpl.
  - apply NoDup_app. split_and!; [done| |apply NoDup_singleton].
    intros g Hg Hgf. apply list_elem_of_singleton in Hgf. subst g.
    apply Hout. by apply Hmap.
  - intros g. rewrite elem_of_union, elem_of_singleton, Hmap, elem_of_app,
      list_elem_of_singleton. done.
Qed.

(** ** Picking a frame and counting pinned frames *)

Lemma pick_frame_None (b : BufferPoolManagerInstance) :
  pick_frame b = None ↔ free_list_ b = [] ∧ replacer_ (replacer b) = [].
Proof.
  unfold pick_frame, Victim.
  destruct (free_list_ b) as [|f rest].
  - destruct (replacer_ (replacer b)) as [|g l]; simpl.
    + by split.
    + split; [discriminate|intros [_ ?]; discriminate].
  - split; [discriminate|intros [? _]; discriminate].
Qed.

Lemma pick_frame_Some (b b1 : BufferPoolManagerInstance) (f : nat) :
  pick_frame b = Some (f, b1) →
  (f ∈ free_list_ b ∨ f ∈ replacer_ (replacer b))
  ∧ pool_size_ b1 = pool_size_ b
  ∧ pages_ b1 = pages_ b
  ∧ page_table_ b1 = page_table_ b
  ∧ next_page_id_ b1 = next_page_id_ b
  ∧ num_instances_ b1 = num_instances_ b
  ∧ (∀ g, g ∈ free_list_ b1 → g ∈ free_list_ b)
  ∧ (∀ g, g ∈ replacer_ (replacer b1) → g ∈ replacer_ (replacer b)).
Proof.
  unfold pick_frame, Victim.
  destruct (free_list_ b) as [|x rest] eqn:Efree.
  - destruct (replacer_ (replacer b)) as [|y l] eqn:Erepl; [discriminate|].
    intros [= <- <-]. simpl.
    split_and!; try done.
    + right. apply list_elem_of_here.
    + intros g Hg. by rewrite Efree in Hg.
    + intros g Hg. by apply list_elem_of_further.
  - intros [= <- <-]. simpl.
    split_and!; try done.
    + left. apply list_elem_of_here.
    + intros g Hg. by apply list_elem_of_further.
Qed.

Lemma pick_frame_LRU_wf (b b1 : BufferPoolManagerInstance) (f : nat) :
  pick_frame b = Some (f, b1) → LRU_wf (replacer b) → LRU_wf (replacer b1).
Proof.
  unfold pick_frame. destruct (free_list_ b) as [|x rest].
  - pose proof (LRU_wf_Victim (replacer b)) as HV.
    destruct (Victim (replacer b)) as [[g|] r]; [|discriminate].
    intros [= <- <-] Hwf. simpl. by apply HV.
  - by intros [= <- <-].
Qed.

Lemma filter_all_length {A} (P : A → Prop) `{∀ x, Decision (P x)} (l : list A) :
  length (filter P l) = length l ↔ Forall P l.
Proof.
  induction l as [|x l IH]; [by split|].
  rewrite filter_cons, Forall_cons. destruct (decide (P x)) as [HP|HP]; simpl.
  - rewrite <- IH. split; [intros ?; split; [done|lia]|intros [_ ?]; lia].
  - pose proof (length_filter P l). split; [lia|tauto].
Qed.

(** The test [pinned_num == pool_size_]: every frame of the array holds a page
    and has a non-zero pin count. *)
Lemma pinned_num_all (b : BufferPoolManagerInstance) :
  pinned_num b = pool_size_ b ↔
  ∀ i, i < pool_size_ b →
       page_id_ (frame b i) ≠ INVALID_PAGE_ID ∧ pin_count_ (frame b i) ≠ 0%Z.
Proof.
  unfold pinned_num.
  transitivity (Forall (λ i, is_pinned (frame b i) = true) (seq 0 (pool_size_ b))).
  { rewrite <- filter_all_length. by rewrite length_seq. }
  rewrite Forall_forall.
  split.
  - intros H i Hi. specialize (H i). rewrite elem_of_seq in H.
    specialize (H ltac:(lia)). unfold is_pinned in H.
    apply andb_true_iff in H. destruct H as [H1 H2].
    apply bool_decide_eq_true in H1, H2. done.
  - intros H i Hi. rewrite elem_of_seq in Hi. destruct (H i ltac:(lia)) as [H1 H2].
    unfold is_pinned. apply andb_true_iff. by rewrite !bool_decide_eq_true.
Qed.

(** ** The page table under the victim's bookkeeping *)

(** What the loop over the page table finds. *)
Lemma find_frame_Some (f : nat) (pt : gmap Z nat) (pid : Z) :
  find_frame f pt = Some pid → pt !! pid = Some f.
Proof.
  unfold find_frame. intros H.
  apply fmap_Some in H. destruct H as ([i [k v]] & Hfind & ->).
  apply list_find_Some in Hfind. destruct Hfind as (Hl & Hv & _).
  simpl in *. subst v.
  apply elem_of_map_to_list. eapply list_elem_of_lookup_2. exact Hl.
Qed.

Lemma find_frame_None (f : nat) (pt : gmap Z nat) :
  find_frame f pt = None → ∀ pid, pt !! pid ≠ Some f.
Proof.
  unfold find_frame. intros H pid Hpid.
  apply fmap_None in H. apply list_find_None in H.
  rewrite Forall_forall in H.
  apply (H (pid, f)); [|done]. by apply elem_of_map_to_list.
Qed.

Lemma find_frame_is_Some (f : nat) (pt : gmap Z nat) (pid : Z) :
  pt !! pid = Some f → is_Some (find_frame f pt).
Proof.
  intros Hpid. destruct (find_frame f pt) eqn:E; [eauto|].
  by destruct (find_frame_None f pt E pid).
Qed.

Lemma erase_frame_lookup (f : nat) (pt : gmap Z nat) (pid : Z) (g : nat) :
  erase_frame f pt !! pid = Some g → pt !! pid = Some g.
Proof.
  unfold erase_frame. destruct (find_frame f pt) as [k|]; [|done].
  intros H. apply lookup_delete_Some in H. tauto.
Qed.

Lemma erase_frame_keeps (f : nat) (pt : gmap Z nat) (pid : Z) (g : nat) :
  g ≠ f → pt !! pid = Some g → erase_frame f pt !! pid = Some g.
Proof.
  intros Hne Hpid. unfold erase_frame.
  destruct (find_frame f pt) as [k|] eqn:E; [|done].
  apply find_frame_Some in E.
  rewrite lookup_delete_ne; [done|]. intros ->. congruence.
Qed.

(** When at most one key maps to the frame, erasing the entry the loop finds
    leaves no entry for the frame. *)
Lemma erase_frame_gone (f : nat) (pt : gmap Z nat) :
  (∀ k1 k2, pt !! k1 = Some f → pt !! k2 = Some f → k1 = k2) →
  ∀ pid, erase_frame f pt !! pid ≠ Some f.
Proof.
  intros Hinj pid. unfold erase_frame.
  destruct (find_frame f pt) as [k|] eqn:E.
  - apply find_frame_Some in E. intros H. apply lookup_delete_Some in H.
    destruct H as [Hne H]. apply Hne. by apply Hinj.
  - by apply find_frame_None.
Qed.

Lemma emplace_lookup (k : Z) (v : nat) (pt : gmap Z nat) (pid : Z) (g : nat) :
  emplace k v pt !! pid = Some g →
  (pid = k ∧ g = v ∧ pt !! k = None) ∨ pt !! pid = Some g.
Proof.
  unfold emplace. destruct (pt !! k) eqn:E; [by right|].
  intros H. apply lookup_insert_Some in H.
  destruct H as [[-> ->]|[_ H]]; [by left|by right].
Qed.

Lemma emplace_keeps (k : Z) (v : nat) (pt : gmap Z nat) (pid : Z) (g : nat) :
  pt !! pid = Some g → emplace k v pt !! pid = Some g.
Proof.
  intros Hpid. unfold emplace. destruct (pt !! k) eqn:E; [done|].
  rewrite lookup_insert_ne; [done|]. intros ->. congruence.
Qed.

Lemma emplace_fresh (k : Z) (v : nat) (pt : gmap Z nat) :
  pt !! k = None → emplace k v pt !! k = Some v.
Proof. intros H. unfold emplace. rewrite H. apply lookup_insert_eq. Qed.

(** ** The representation invariant is kept *)

Lemma pool_wf_table_inj (b : BufferPoolManagerInstance) (f : nat) (k1 k2 : Z) :
  pool_wf b → page_table_ b !! k1 = Some f → page_table_ b !! k2 = Some f → k1 = k2.
Proof.
  intros Hwf H1 H2.
  destruct (wf_table b Hwf k1 f H1) as [_ <-].
  destruct (wf_table b Hwf k2 f H2) as [_ <-]. done.
Qed.

(** One frame [f] gets the contents [p]; the lists shrink or grow within the
    array; the page table changes only in entries for [f]. *)
Lemma pool_wf_update (b b' : BufferPoolManagerInstance) (f : nat) (p : Page) :
  pool_wf b →
  f < pool_size_ b →
  pool_size_ b' = pool_size_ b →
  pages_ b' = <[f := p]> (pages_ b) →
  LRU_wf (replacer b') →
  (∀ g, g ∈ free_list_ b' → g < pool_size_ b) →
  (∀ g, g ∈ replacer_ (replacer b') → g < pool_size_ b) →
  (∀ pid g, page_table_ b' !! pid = Some g →
            (g = f ∧ page_id_ p = pid) ∨ (g ≠ f ∧ page_table_ b !! pid = Some g)) →
  (∀ pid g, g ≠ f → page_table_ b !! pid = Some g → page_table_ b' !! pid = Some g) →
  (is_dirty_ p = true → page_table_ b' !! page_id_ p = Some f) →
  pool_wf b'.
Proof.
  intros Hwf Hf Hsize Hpages Hlru Hfree Hrepl Htable Hkeep Hdirty.
  assert (Hlt : f < length (pages_ b)) by (rewrite (wf_pages b Hwf); done).
  pose proof (λ g, frame_after_insert b b' f g p Hpages Hlt) as Hframe.
  constructor.
  - exact Hlru.
  - rewrite Hpages, length_insert, Hsize. apply (wf_pages b Hwf).
  - intros g Hg. rewrite Hsize. auto.
  - intros g Hg. rewrite Hsize. auto.
  - intros pid g Hpid. rewrite Hsize, Hframe.
    destruct (Htable pid g Hpid) as [[-> Hp]|[Hne Hold]].
    + by rewrite decide_True.
    + rewrite decide_False by done. by apply (wf_table b Hwf).
  - intros g. rewrite Hframe. destruct (decide (g = f)) as [->|Hne]; [done|].
    intros Hg. apply Hkeep; [done|]. by apply (wf_dirty b Hwf).
Qed.

Lemma pool_wf_new (pool_size : nat) (num_instances instance_index : Z) :
  pool_wf (new_BufferPoolManagerInstance pool_size num_instances instance_index).
Proof.
  constructor; simpl.
  - apply LRU_wf_new.
  - apply length_replicate.
  - intros f Hf. apply elem_of_seq in Hf. lia.
  - intros f Hf. by apply elem_of_nil in Hf.
  - intros pid f Hpid. by rewrite lookup_empty in Hpid.
  - intros f. unfold frame; simpl.
    destruct (decide (f < pool_size)) as [Hlt|Hge].
    + rewrite (list_lookup_total_correct _ _ new_Page); [done|].
      by apply lookup_replicate_2.
    + rewrite list_lookup_total_alt, (lookup_ge_None_2 _ f); [done|].
      rewrite length_replicate. lia.
Qed.

Lemma pick_frame_in_range (b b1 : BufferPoolManagerInstance) (f : nat) :
  pool_wf b → pick_frame b = Some (f, b1) → f < pool_size_ b.
Proof.
  intros Hwf Hpick. apply pick_frame_Some in Hpick.
  destruct Hpick as ([Hf|Hf] & _).
  - by apply (wf_free b Hwf).
  - by apply (wf_replacer b Hwf).
Qed.

(** The bookkeeping shared by [NewPgImp] and the miss branch of [FetchPgImp]:
    the victim's old entry is erased, the new one emplaced, the frame holds
    the new page, clean. *)
Lemma pool_wf_install (b b1 b' : BufferPoolManagerInstance) (f : nat) (pid : Z) (p : Page) :
  pool_wf b →
  pick_frame b = Some (f, b1) →
  pool_size_ b' = pool_size_ b →
  pages_ b' = <[f := p]> (pages_ b) →
  free_list_ b' = free_list_ b1 →
  replacer b' = Pin f (replacer b1) →
  page_table_ b' = emplace pid f (erase_frame f (page_table_ b)) →
  page_id_ p = pid →
  is_dirty_ p = false →
  pool_wf b'.
Proof.
  intros Hwf Hpick Hsize Hpages Hfree Hrepl Htable Hpid Hclean.
  pose proof (pick_frame_in_range b b1 f Hwf Hpick) as Hf.
  pose proof Hpick as Hpick0.
  apply pick_frame_Some in Hpick.
  destruct Hpick as (_ & _ & _ & _ & _ & _ & Hfree1 & Hrepl1).
  apply (pool_wf_update b b' f p); try done.
  - rewrite Hrepl. apply LRU_wf_Pin.
    apply (pick_frame_LRU_wf b b1 f Hpick0), (wf_lru b Hwf).
  - intros g Hg. rewrite Hfree in Hg. apply (wf_free b Hwf). auto.
  - intros g Hg. rewrite Hrepl in Hg. apply Pin_subset in Hg.
    apply (wf_replacer b Hwf). auto.
  - intros k g Hk. rewrite Htable in Hk. apply emplace_lookup in Hk.
    destruct Hk as [(-> & -> & _)|Hk]; [by left|].
    right. split.
    + intros ->. revert Hk. apply erase_frame_gone.
      intros k1 k2. apply (pool_wf_table_inj b f k1 k2 Hwf).
    + by apply erase_frame_lookup in Hk.
  - intros k g Hne Hk. rewrite Htable. apply emplace_keeps.
    by apply erase_frame_keeps.
  - rewrite Hclean. discriminate.
Qed.

Lemma pool_wf_FetchPgImp (page_id : Z) (b : BufferPoolManagerInstance) (d : DiskManager) :
  pool_wf b → pool_wf (FetchPgImp page_id b d).1.2.
Proof.
  intros Hwf. unfold FetchPgImp.
  destruct (page_table_ b !! page_id) as [frame_id|] eqn:Hres.
  - destruct (wf_table b Hwf _ _ Hres) as [Hf Hpid]. simpl.
    eapply (pool_wf_update b _ frame_id); try done; simpl.
    + apply LRU_wf_Pin, (wf_lru b Hwf).
    + apply (wf_free b Hwf).
    + intros g Hg. apply Pin_subset in Hg. by apply (wf_replacer b Hwf).
    + intros k g Hk. destruct (decide (g = frame_id)) as [->|Hne]; [left|by right].
      split; [done|]. simpl. rewrite Hpid.
      apply (pool_wf_table_inj b frame_id page_id k Hwf); done.
    + simpl. intros Hd. by apply (wf_dirty b Hwf).
  - destruct (pick_frame b) as [[frame_id b1]|] eqn:Hpick; [|done].
    pose proof (pick_frame_Some b b1 frame_id Hpick)
      as (_ & Hsize & Hpages & Htable & _).
    simpl. eapply (pool_wf_install b b1 _ frame_id page_id); try done; simpl.
    + by rewrite Hpages.
    + by rewrite Htable.
    + reflexivity.
    + reflexivity.
Qed.

Lemma pool_wf_NewPgImp (junk : Z) (b : BufferPoolManagerInstance) (d : DiskManager) :
  pool_wf b → pool_wf (NewPgImp junk b d).1.2.
Proof.
  intros Hwf. unfold NewPgImp.
  destruct (decide (pinned_num b = pool_size_ b)); [done|].
  destruct (pick_frame b) as [[victim_id b1]|] eqn:Hpick; [|done].
  pose proof (pick_frame_Some b b1 victim_id Hpick)
    as (_ & Hsize & Hpages & Htable & Hnext & _).
  simpl. eapply (pool_wf_install b b1 _ victim_id (next_page_id_ b1)); try done; simpl.
  - by rewrite Hpages.
  - by rewrite Htable.
  - reflexivity.
  - reflexivity.
Qed.

Lemma pool_wf_UnpinPgImp (page_id : Z) (is_dirty : bool)
    (b : BufferPoolManagerInstance) (d : DiskManager) :
  pool_wf b → pool_wf (UnpinPgImp page_id is_dirty b d).1.2.
Proof.
  intros Hwf. unfold UnpinPgImp.
  destruct (page_table_ b !! page_id) as [frame_id|] eqn:Hres; [|done].
  destruct (decide (pin_count_ (frame b frame_id) > 0)%Z) as [Hpin|Hpin]; [|done].
  destruct (wf_table b Hwf _ _ Hres) as [Hf Hpid]. simpl.
  assert (Hsame : ∀ p, page_id_ (if is_dirty then set_is_dirty is_dirty p else p)
                       = page_id_ p) by (intros p; by destruct is_dirty).
  eapply (pool_wf_update b _ frame_id); try done; simpl.
  - apply LRU_wf_Unpin, (wf_lru b Hwf).
  - apply (wf_free b Hwf).
  - intros g Hg. apply Unpin_elem in Hg. destruct Hg as [Hg| ->]; [|done].
    by apply (wf_replacer b Hwf).
  - intros k g Hk. destruct (decide (g = frame_id)) as [->|Hne]; [left|by right].
    split; [done|]. rewrite Hsame. simpl. rewrite Hpid.
    apply (pool_wf_table_inj b frame_id page_id k Hwf); done.
  - intros _. rewrite Hsame. simpl. by rewrite Hpid.
Qed.

(** [FlushPgImp] and [DeletePgImp] release a frame in the same way. *)
Lemma pool_wf_release (b b' : BufferPoolManagerInstance) (page_id : Z) (f : nat) :
  pool_wf b →
  page_table_ b !! page_id = Some f →
  pool_size_ b' = pool_size_ b →
  pages_ b' = <[f := released (frame b f)]> (pages_ b) →
  free_list_ b' = free_list_ b ++ [f] →
  replacer b' = replacer b →
  page_table_ b' = delete page_id (page_table_ b) →
  pool_wf b'.
Proof.
  intros Hwf Hres Hsize Hpages Hfree Hrepl Htable.
  destruct (wf_table b Hwf _ _ Hres) as [Hf Hpid].
  apply (pool_wf_update b b' f (released (frame b f))); try done.
  - rewrite Hrepl. apply (wf_lru b Hwf).
  - intros g Hg. rewrite Hfree in Hg. apply elem_of_app in Hg.
    destruct Hg as [Hg|Hg]; [by apply (wf_free b Hwf)|].
    apply list_elem_of_singleton in Hg. by subst g.
  - intros g Hg. rewrite Hrepl in Hg. by apply (wf_replacer b Hwf).
  - intros k g Hk. rewrite Htable in Hk. apply lookup_delete_Some in Hk.
    destruct Hk as [Hne Hk]. right. split; [|done].
    intros ->. apply Hne. by apply (pool_wf_table_inj b f page_id k Hwf).
  - intros k g Hne Hk. rewrite Htable. rewrite lookup_delete_ne; [done|].
    intros <-. congruence.
Qed.

Lemma pool_wf_FlushPgImp (page_id : Z) (b : BufferPoolManagerInstance) (d : DiskManager) :
  pool_wf b → pool_wf (FlushPgImp page_id b d).1.2.
Proof.
  intros Hwf. unfold FlushPgImp.
  destruct (page_table_ b !! page_id) as [frame_id|] eqn:Hres; [|done].
  destruct (decide (page_id = INVALID_PAGE_ID)); [done|].
  simpl. by eapply (pool_wf_release b _ page_id frame_id).
Qed.

Lemma pool_wf_DeletePgImp (page_id : Z) (b : BufferPoolManagerInstance) (d : DiskManager) :
  pool_wf b → pool_wf (DeletePgImp page_id b d).1.2.
Proof.
  intros Hwf. unfold DeletePgImp.
  destruct (page_table_ b !! page_id) as [frame_id|] eqn:Hres; [|done].
  destruct (decide (pin_count_ (frame b frame_id) = 0%Z)); [|done].
  simpl. by eapply (pool_wf_release b _ page_id frame_id).
Qed.

Lemma released_eq (p : Page) : released p = new_Page.
Proof. reflexivity. Qed.

(** The loop of [FlushAllPgsImp] over entries with distinct keys that name
    distinct frames of the array: every named frame ends up released, the
    others are untouched, a dirty frame's buffer is stored at its key, and a
    key with no dirty frame keeps its stored page. *)
Lemma flush_items_spec (items : list (Z * nat)) :
  NoDup items.*1 →
  (∀ k1 k2 f, (k1, f) ∈ items → (k2, f) ∈ items → k1 = k2) →
  ∀ (pages : list Page) (d : DiskManager),
    (∀ k f, (k, f) ∈ items → f < length pages) →
    let r := foldl flush_item (pages, d) items in
    length r.1 = length pages
    ∧ (∀ k f, (k, f) ∈ items → r.1 !!! f = new_Page)
    ∧ (∀ f, (∀ k, (k, f) ∉ items) → r.1 !!! f = pages !!! f)
    ∧ (∀ k f, (k, f) ∈ items → is_dirty_ (pages !!! f) = true →
              disk_pages r.2 !! k = Some (data_ (pages !!! f)))
    ∧ (∀ k, (∀ f, (k, f) ∈ items → is_dirty_ (pages !!! f) = false) →
            disk_pages r.2 !! k = disk_pages d !! k).
Proof.
  induction items as [|[k0 f0] rest IH]; intros Hnodup Hinj pages d Hrange.
  { simpl. split_and!; try done; intros k f Hin; by apply elem_of_nil in Hin. }
  rewrite fmap_cons in Hnodup. apply NoDup_cons in Hnodup.
  destruct Hnodup as [Hk0 Hnodup]. simpl in Hk0.
  assert (Hkey : ∀ f, (k0, f) ∉ rest).
  { intros f Hin. apply Hk0. by apply (list_elem_of_fmap_2 fst) in Hin. }
  assert (Hval : ∀ k, (k, f0) ∉ rest).
  { intros k Hin. apply (Hkey f0).
    rewrite (Hinj k0 k f0); [done|apply list_elem_of_here|].
    by apply list_elem_of_further. }
  assert (Hf0 : f0 < length pages) by (apply (Hrange k0); apply list_elem_of_here).
  set (pages1 := <[f0 := released (pages !!! f0)]> pages).
  set (d1 := if is_dirty_ (pages !!! f0)
             then WritePage k0 (data_ (pages !!! f0)) d else d).
  assert (Hother : ∀ f, f ≠ f0 → pages1 !!! f = pages !!! f).
  { intros f Hne. unfold pages1. by apply list_lookup_total_insert_ne. }
  assert (Hrest : ∀ k f, (k, f) ∈ rest → f ≠ f0).
  { intros k f Hin ->. by apply (Hval k). }
  destruct (IH Hnodup) with (pages := pages1) (d := d1)
    as (Hlen & Hrel & Hkeep & Hwritten & Hclean).
  { intros k1 k2 f H1 H2. apply (Hinj k1 k2 f); by apply list_elem_of_further. }
  { intros k f Hin. unfold pages1. rewrite length_insert.
    apply (Hrange k). by apply list_elem_of_further. }
  change (foldl flush_item (pages, d) ((k0, f0) :: rest))
    with (foldl flush_item (pages1, d1) rest).
  simpl. split_and!.
  - rewrite Hlen. unfold pages1. apply length_insert.
  - intros k f Hin. apply elem_of_cons in Hin. destruct Hin as [[= -> ->]|Hin].
    + rewrite (Hkeep f0 Hval). unfold pages1.
      by apply list_lookup_total_insert_eq.
    + by apply (Hrel k).
  - intros f Hnone. rewrite Hkeep.
    + apply Hother. intros ->. apply (Hnone k0). apply list_elem_of_here.
    + intros k Hin. apply (Hnone k). by apply list_elem_of_further.
  - intros k f Hin Hdirty. apply elem_of_cons in Hin.
    destruct Hin as [[= -> ->]|Hin].
    + rewrite Hclean.
      * unfold d1. rewrite Hdirty. simpl. apply lookup_insert_eq.
      * intros f Hin. by destruct (Hkey f).
    + rewrite <- (Hother f (Hrest k f Hin)).
      apply (Hwritten k f Hin). by rewrite (Hother f (Hrest k f Hin)).
  - intros k Hall. rewrite Hclean.
    + unfold d1. destruct (is_dirty_ (pages !!! f0)) eqn:Hd; [|done].
      simpl. rewrite lookup_insert_ne; [done|]. intros <-.
      rewrite (Hall f0) in Hd; [done|apply list_elem_of_here].
    + intros f Hin. rewrite (Hother f (Hrest k f Hin)).
      apply Hall. by apply list_elem_of_further.
Qed.

Lemma FlushAllPgsImp_loop (b : BufferPoolManagerInstance) (d : DiskManager) :
  pool_wf b →
  let r := foldl flush_item (pages_ b, d) (map_to_list (page_table_ b)) in
  length r.1 = pool_size_ b
  ∧ (∀ k f, page_table_ b !! k = Some f → r.1 !!! f = new_Page)
  ∧ (∀ f, (∀ k, page_table_ b !! k ≠ Some f) → r.1 !!! f = frame b f)
  ∧ (∀ k f, page_table_ b !! k = Some f → is_dirty_ (frame b f) = true →
            disk_pages r.2 !! k = Some (data_ (frame b f)))
  ∧ (∀ k, (∀ f, page_table_ b !! k = Some f → is_dirty_ (frame b f) = false) →
          disk_pages r.2 !! k = disk_pages d !! k).
Proof.
  intros Hwf.
  destruct (flush_items_spec (map_to_list (page_table_ b)))
    with (pages := pages_ b) (d := d)
    as (Hlen & Hrel & Hkeep & Hwritten & Hclean).
  { apply NoDup_fst_map_to_list. }
  { intros k1 k2 f H1 H2. apply elem_of_map_to_list in H1, H2.
    by apply (pool_wf_table_inj b f k1 k2 Hwf). }
  { intros k f Hin. apply elem_of_map_to_list in Hin.
    rewrite (wf_pages b Hwf). by apply (wf_table b Hwf k f). }
  simpl. split_and!.
  - rewrite Hlen. apply (wf_pages b Hwf).
  - intros k f Hk. apply (Hrel k). by apply elem_of_map_to_list.
  - intros f Hnone. apply Hkeep. intros k Hin.
    apply elem_of_map_to_list in Hin. by apply (Hnone k).
  - intros k f Hk Hd. apply (Hwritten k f); [|done]. by apply elem_of_map_to_list.
  - intros k Hall. apply Hclean. intros f Hin.
    apply elem_of_map_to_list in Hin. by apply Hall.
Qed.

Lemma pool_wf_FlushAllPgsImp (b : BufferPoolManagerInstance) (d : DiskManager) :
  pool_wf b → pool_wf (FlushAllPgsImp b d).1.
Proof.
  intros Hwf.
  destruct (FlushAllPgsImp_loop b d Hwf) as (Hlen & Hrel & Hkeep & _ & _).
  unfold FlushAllPgsImp. constructor; simpl.
  - apply (wf_lru b Hwf).
  - exact Hlen.
  - intros f Hf. apply elem_of_seq in Hf. lia.
  - apply (wf_replacer b Hwf).
  - intros pid f Hpid. by rewrite lookup_empty in Hpid.
  - intros f Hdirty. exfalso. unfold frame in Hdirty; simpl in Hdirty.
    destruct (find_frame f (page_table_ b)) as [k|] eqn:Efind.
    + apply find_frame_Some in Efind. by rewrite (Hrel k f Efind) in Hdirty.
    + pose proof (find_frame_None f (page_table_ b) Efind) as Hnone.
      rewrite (Hkeep f Hnone) in Hdirty.
      apply (wf_dirty b Hwf) in Hdirty. by apply Hnone in Hdirty.
Qed.

(** Every request keeps the invariant, so every state a client can reach from
    the constructor satisfies it. *)
Lemma pool_wf_serve (junk : Z) (s : BufferPoolManagerInstance * DiskManager) (r : request) :
  pool_wf s.1 → pool_wf (serve junk s r).1.
Proof.
  intros Hwf. destruct r; simpl.
  - by apply pool_wf_FetchPgImp.
  - by apply pool_wf_NewPgImp.
  - by apply pool_wf_UnpinPgImp.
  - by apply pool_wf_FlushPgImp.
  - by apply pool_wf_FlushAllPgsImp.
  - by apply pool_wf_DeletePgImp.
Qed.

Lemma pool_wf_serve_all (junk : Z) (rs : list request)
    (s : BufferPoolManagerInstance * DiskManager) :
  pool_wf s.1 → pool_wf (serve_all junk s rs).1.
Proof.
  revert s. induction rs as [|r rs IH]; intros s Hwf; [done|].
  simpl. apply IH. by apply pool_wf_serve.
Qed.

Lemma pool_wf_reachable (junk : Z) (n : nat) (num_instances instance_index : Z)
    (d : DiskManager) (rs : list request) :
  pool_wf (serve_all junk
             (new_BufferPoolManagerInstance n num_instances instance_index, d) rs).1.
Proof. apply pool_wf_serve_all. apply pool_wf_new. Qed.

(** ** The assertion of AllocatePage *)

Lemma alloc_wf_new (pool_size : nat) (num_instances instance_index : Z) :
  (0 < num_instances)%Z →
  (0 ≤ instance_index < num_instances)%Z →
  alloc_wf (new_BufferPoolManagerInstance pool_size num_instances instance_index).
Proof.
  intros Hn Hi. split_and!; simpl; [done|lia|lia|].
  apply bool_decide_eq_true. simpl. by apply Z.mod_small.
Qed.

Lemma pick_frame_alloc (b b1 : BufferPoolManagerInstance) (f : nat) :
  pick_frame b = Some (f, b1) →
  num_instances_ b1 = num_instances_ b
  ∧ instance_index_ b1 = instance_index_ b
  ∧ next_page_id_ b1 = next_page_id_ b.
Proof.
  unfold pick_frame, Victim.
  destruct (free_list_ b) as [|x rest].
  - destruct (replacer_ (replacer b)) as [|y l]; [discriminate|].
    by intros [= <- <-].
  - by intros [= <- <-].
Qed.

(** Only [NewPgImp] moves the next page id, and by [num_instances_]. *)
Lemma alloc_fields_serve (junk : Z) (s : BufferPoolManagerInstance * DiskManager)
    (r : request) :
  num_instances_ (serve junk s r).1 = num_instances_ s.1
  ∧ instance_index_ (serve junk s r).1 = instance_index_ s.1
  ∧ (next_page_id_ (serve junk s r).1 = next_page_id_ s.1
     ∨ next_page_id_ (serve junk s r).1 = (next_page_id_ s.1 + num_instances_ s.1)%Z).
Proof.
  destruct s as [b d]. destruct r; simpl.
  - unfold FetchPgImp. destruct (page_table_ b !! page_id); simpl; [by auto|].
    destruct (pick_frame b) as [[f b1]|] eqn:Hpick; simpl; [|by auto].
    apply pick_frame_alloc in Hpick. destruct Hpick as (-> & -> & ->). auto.
  - unfold NewPgImp. destruct (decide (pinned_num b = pool_size_ b)); simpl; [by auto|].
    destruct (pick_frame b) as [[f b1]|] eqn:Hpick; simpl; [|by auto].
    apply pick_frame_alloc in Hpick. destruct Hpick as (-> & -> & ->). auto.
  - unfold UnpinPgImp. destruct (page_table_ b !! page_id); simpl; [|by auto].
    destruct (decide (pin_count_ (frame b n) > 0)%Z); simpl; auto.
  - unfold FlushPgImp. destruct (page_table_ b !! page_id); simpl; [|by auto].
    destruct (decide (page_id = INVALID_PAGE_ID)); simpl; auto.
  - auto.
  - unfold DeletePgImp. destruct (page_table_ b !! page_id); simpl; [|by auto].
    destruct (decide (pin_count_ (frame b n) = 0%Z)); simpl; auto.
Qed.

Lemma alloc_wf_serve (junk : Z) (s : BufferPoolManagerInstance * DiskManager)
    (r : request) :
  alloc_wf s.1 → alloc_wf (serve junk s r).1.
Proof.
  intros (Hn & Hi & Hv).
  destruct (alloc_fields_serve junk s r) as (Hnum & Hidx & Hnext).
  unfold alloc_wf, ValidatePageId in *. rewrite Hnum, Hidx.
  split_and!; [done|lia|lia|].
  apply bool_decide_eq_true in Hv. apply bool_decide_eq_true.
  destruct Hnext as [->| ->]; [done|].
  rewrite <- Hv.
  rewrite <- (Z_mod_plus_full (next_page_id_ s.1) 1 (num_instances_ s.1)).
  f_equal. lia.
Qed.

(** On every state reached from a constructor call that meets the
    constructor's assertions, the id [AllocatePage] is about to hand out
    passes [ValidatePageId]. *)
Lemma ValidatePageId_reachable (junk : Z) (n : nat) (num_instances instance_index : Z)
    (d : DiskManager) (rs : list request) :
  (0 < num_instances)%Z →
  (0 ≤ instance_index < num_instances)%Z →
  let b := (serve_all junk
              (new_BufferPoolManagerInstance n num_instances instance_index, d) rs).1 in
  ValidatePageId (AllocatePage b).1 b = true.
Proof.
  intros Hn Hi.
  assert (Hgen : ∀ s, alloc_wf s.1 → alloc_wf (serve_all junk s rs).1).
  { induction rs as [|r rs IH]; intros s Hs; [done|].
    simpl. apply IH. by apply alloc_wf_serve. }
  simpl. apply (Hgen (_, d)). simpl. by apply alloc_wf_new.
Qed.

(** ** The model on three request sequences *)

(** Three frames: the first three [NewPage] calls get page ids 0, 1, 2 in
    frames 0, 1, 2, the fourth gets nothing; after [UnpinPage 0] the next one
    gets page id 3 in frame 0 and page 0 is gone from the page table. *)
Example four_new_pages :
  let s3 := serve_all 0 (fresh 3) [NewPage; NewPage] in
  let s4 := serve_all 0 s3 [NewPage] in
  let s5 := serve_all 0 s4 [NewPage; UnpinPage 0 false] in
  (NewPgImp 0 (fresh 3).1 (fresh 3).2).1.1 = Some (0%Z, 0)
  ∧ (NewPgImp 0 s3.1 s3.2).1.1 = Some (2%Z, 2)
  ∧ (NewPgImp 0 s4.1 s4.2).1.1 = None
  ∧ (NewPgImp 0 s5.1 s5.2).1.1 = Some (3%Z, 0)
  ∧ page_table_ (NewPgImp 0 s5.1 s5.2).1.2 !! 0%Z = None.
Proof. split_and!; vm_compute; reflexivity. Qed.

(** Three frames, pages 0, 1, 2 unpinned in this order: the replacer hands
    out the frame of page 0 first. *)
Example least_recently_unpinned_first :
  let s := serve_all 0 (fresh 3)
             [NewPage; NewPage; NewPage;
              UnpinPage 0 false; UnpinPage 1 false; UnpinPage 2 false] in
  replacer_ (replacer s.1) = [0; 1; 2]
  ∧ (NewPgImp 0 s.1 s.2).1.1 = Some (3%Z, 0)
  ∧ replacer_ (replacer (NewPgImp 0 s.1 s.2).1.2) = [1; 2].
Proof. split_and!; vm_compute; reflexivity. Qed.

(** Two shards of one frame each: page 0 on shard 0, page 1 on shard 1, then
    nothing. *)
Example two_shards_of_one_frame :
  let p0 := Parallel.new_ParallelBufferPoolManager 2 1 in
  let r1 := Parallel.NewPgImp 0 p0 blank_disk in
  let r2 := Parallel.NewPgImp 0 r1.1.2 r1.2 in
  let r3 := Parallel.NewPgImp 0 r2.1.2 r2.2 in
  r1.1.1 = Some (0, 0%Z, 0) ∧ r2.1.1 = Some (1, 1%Z, 0) ∧ r3.1.1 = None.
Proof. split_and!; vm_compute; reflexivity. Qed.

(** ** Pinned frames and eviction *)

(** C1.  In a pool of two frames, page 0 sits in frame 0 with pin count 1
    (fetched twice, unpinned once).  A later [FetchPgImp] of page 7, and in a
    second run a later [NewPgImp], both pick frame 0: page 0 leaves the page
    table and the frame takes the other page id while its pin count was 1. *)
Theorem pinned_frame_is_evicted :
  (let s := serve_all 0 (fresh 2) [NewPage; FetchPage 0; UnpinPage 0 false; NewPage] in
   page_table_ s.1 !! 0%Z = Some 0
   ∧ pin_count_ (frame s.1 0) = 1%Z
   ∧ ∃ b' d',
       FetchPgImp 7 s.1 s.2 = (Some 0, b', d')
       ∧ page_table_ b' !! 0%Z = None
       ∧ page_table_ b' !! 7%Z = Some 0
       ∧ page_id_ (frame b' 0) = 7%Z)
  ∧ (let s := serve_all 0 (fresh 2)
                [NewPage; NewPage; FetchPage 0; UnpinPage 0 false; UnpinPage 1 false] in
     page_table_ s.1 !! 0%Z = Some 0
     ∧ pin_count_ (frame s.1 0) = 1%Z
     ∧ ∃ b' d',
         NewPgImp 0 s.1 s.2 = (Some (2%Z, 0), b', d')
         ∧ page_table_ b' !! 0%Z = None
         ∧ page_table_ b' !! 2%Z = Some 0
         ∧ page_id_ (frame b' 0) = 2%Z).
Proof.
  split; (split_and!; try (vm_compute; reflexivity));
    eexists _, _; split_and!; vm_compute; reflexivity.
Qed.

(** ** UnpinPgImp *)

(** What [UnpinPgImp] does on any state: nothing and [false] when the page is
    not resident or its pin count is not positive; otherwise the pin count
    drops by 1, the dirty flag is set when [is_dirty] is [true] and kept
    otherwise, and the frame goes through [Unpin] of the replacer, whatever
    the new pin count. *)
Lemma UnpinPgImp_cases
    (page_id : Z) (is_dirty : bool) (b : BufferPoolManagerInstance) (d : DiskManager) :
  (page_table_ b !! page_id = None → UnpinPgImp page_id is_dirty b d = (false, b, d))
  ∧ (∀ frame_id,
       page_table_ b !! page_id = Some frame_id →
       (pin_count_ (frame b frame_id) ≤ 0)%Z →
       UnpinPgImp page_id is_dirty b d = (false, b, d))
  ∧ (∀ frame_id,
       page_table_ b !! page_id = Some frame_id →
       frame_id < length (pages_ b) →
       (pin_count_ (frame b frame_id) > 0)%Z →
       ∃ b',
         UnpinPgImp page_id is_dirty b d = (true, b', d)
         ∧ pin_count_ (frame b' frame_id) = (pin_count_ (frame b frame_id) - 1)%Z
         ∧ is_dirty_ (frame b' frame_id) = is_dirty || is_dirty_ (frame b frame_id)
         ∧ data_ (frame b' frame_id) = data_ (frame b frame_id)
         ∧ page_id_ (frame b' frame_id) = page_id_ (frame b frame_id)
         ∧ replacer b' = Unpin frame_id (replacer b)
         ∧ page_table_ b' = page_table_ b
         ∧ free_list_ b' = free_list_ b).
Proof.
  split_and!.
  - intros Hnone. unfold UnpinPgImp. by rewrite Hnone.
  - intros frame_id Hres Hpin. unfold UnpinPgImp. rewrite Hres.
    destruct (decide (pin_count_ (frame b frame_id) > 0)%Z); [lia|done].
  - intros frame_id Hres Hlt Hpin. unfold UnpinPgImp. rewrite Hres.
    destruct (decide (pin_count_ (frame b frame_id) > 0)%Z); [|done].
    set (page1 := set_pin_count (pin_count_ (frame b frame_id) - 1)%Z (frame b frame_id)).
    set (page2 := if is_dirty then set_is_dirty is_dirty page1 else page1).
    set (b1 := set_pages (<[frame_id := page2]> (pages_ b)) b).
    exists (set_replacer (Unpin frame_id (replacer b1)) b1).
    assert (Hf : frame (set_replacer (Unpin frame_id (replacer b1)) b1) frame_id = page2)
      by apply (frame_insert_eq b frame_id page2 Hlt).
    rewrite Hf. unfold page2, page1.
    destruct is_dirty; simpl; split_and!; reflexivity.
Qed.

(** C2.  In a pool of one frame, after [NewPage] and a second fetch of page 0
    the frame has pin count 2.  [UnpinPgImp] of page 0 returns [true] and
    leaves pin count 1, and yet the frame is handed to the replacer: the
    source calls [replacer_->Unpin] whatever the new pin count is. *)
Theorem UnpinPgImp_hands_pinned_frame_to_replacer :
  let s := serve_all 0 (fresh 1) [NewPage; FetchPage 0] in
  page_table_ s.1 !! 0%Z = Some 0
  ∧ pin_count_ (frame s.1 0) = 2%Z
  ∧ replacer_ (replacer s.1) = []
  ∧ ∃ b',
      UnpinPgImp 0 false s.1 s.2 = (true, b', s.2)
      ∧ pin_count_ (frame b' 0) = 1%Z
      ∧ replacer_ (replacer b') = [0].
Proof.
  split_and!; try (vm_compute; reflexivity).
  eexists. split_and!; vm_compute; reflexivity.
Qed.

(** ** FlushPgImp and FlushAllPgsImp *)

(** C3 as stated fails: page 0 is resident in frame 0, unpinned and dirty;
    [FlushPgImp] returns [true], and afterwards page 0 is no longer in the page
    table, the frame's page id is no longer 0 and the frame is on the free
    list. *)
Lemma FlushPgImp_drops_page_counterexample :
  let s := serve_all 0 (fresh 2) [NewPage; UnpinPage 0 true] in
  let o := FlushPgImp 0 s.1 s.2 in
  page_table_ s.1 !! 0%Z = Some 0
  ∧ o.1.1 = true
  ∧ page_table_ o.1.2 !! 0%Z ≠ page_table_ s.1 !! 0%Z
  ∧ page_id_ (frame o.1.2 0) ≠ page_id_ (frame s.1 0)
  ∧ free_list_ s.1 = [1]
  ∧ free_list_ o.1.2 = [1; 0].
Proof.
  split_and!; try (vm_compute; reflexivity); vm_compute; discriminate.
Qed.

(** C3, as the code has it, for pages nobody holds.  A successful
    [FlushPgImp] of a resident page with pin count 0 stores the buffer at the
    page id when the frame is dirty and stores nothing otherwise; it then
    releases the frame: the entry leaves the page table, the frame is reset
    (invalid page id, pin count 0, clean, zeroed) and appended to the free
    list.  [FlushAllPgsImp], when every resident page has pin count 0, stores
    the buffer of each dirty resident frame at its page id, stores nothing for
    the clean ones, resets every resident frame, empties the page table and
    makes the free list [0 .. pool_size). *)
Theorem flush_writes_back_and_releases
    (page_id : Z) (b : BufferPoolManagerInstance) (d : DiskManager) :
  pool_wf b →
  (∀ frame_id,
     page_table_ b !! page_id = Some frame_id →
     page_id ≠ INVALID_PAGE_ID →
     pin_count_ (frame b frame_id) = 0%Z →
     ∃ b' d',
       FlushPgImp page_id b d = (true, b', d')
       ∧ d' = (if is_dirty_ (frame b frame_id)
               then WritePage page_id (data_ (frame b frame_id)) d else d)
       ∧ page_table_ b' = delete page_id (page_table_ b)
       ∧ frame b' frame_id = new_Page
       ∧ (∀ g, g ≠ frame_id → frame b' g = frame b g)
       ∧ free_list_ b' = free_list_ b ++ [frame_id])
  ∧ ((∀ k f, page_table_ b !! k = Some f → pin_count_ (frame b f) = 0%Z) →
     ∃ b' d',
       FlushAllPgsImp b d = (b', d')
       ∧ page_table_ b' = ∅
       ∧ free_list_ b' = seq 0 (pool_size_ b)
       ∧ (∀ k f, page_table_ b !! k = Some f →
            frame b' f = new_Page
            ∧ (is_dirty_ (frame b f) = true →
               disk_pages d' !! k = Some (data_ (frame b f))))
       ∧ (∀ k, (∀ f, page_table_ b !! k = Some f → is_dirty_ (frame b f) = false) →
               disk_pages d' !! k = disk_pages d !! k)).
Proof.
  intros Hwf. split.
  - intros frame_id Hres Hvalid _. unfold FlushPgImp. rewrite Hres.
    destruct (decide (page_id = INVALID_PAGE_ID)); [done|].
    destruct (wf_table b Hwf _ _ Hres) as [Hlt _].
    rewrite <- (wf_pages b Hwf) in Hlt.
    eexists _, _. split; [reflexivity|]. split_and!; try reflexivity.
    + apply (frame_insert_eq b frame_id _ Hlt).
    + intros g Hg. apply (frame_insert_ne b frame_id g). congruence.
  - intros _.
    destruct (FlushAllPgsImp_loop b d Hwf) as (_ & Hrel & _ & Hwritten & Hclean).
    eexists _, _. split; [reflexivity|]. split_and!; try reflexivity.
    + intros k f Hk. split; [by apply (Hrel k)|]. by apply Hwritten.
    + exact Hclean.
Qed.

Lemma flush_writes_back_and_releases_witness :
  let s := serve_all 0 (new_BufferPoolManagerInstance 1 1 0, disk_with_page0)
             [FetchPage 0; UnpinPage 0 true] in
  (∃ b' d',
     FlushPgImp 0 s.1 s.2 = (true, b', d')
     ∧ disk_calls d' = [CallReadPage 0; CallWritePage 0 (repeat x01 PAGE_SIZE)]
     ∧ page_table_ b' !! 0%Z = None
     ∧ free_list_ b' = [0])
  ∧ (∃ b' d',
       FlushAllPgsImp s.1 s.2 = (b', d')
       ∧ disk_pages d' !! 0%Z = Some (repeat x01 PAGE_SIZE)
       ∧ page_table_ b' = ∅
       ∧ free_list_ b' = [0]).
Proof.
  intros s.
  assert (Hwf : pool_wf s.1) by apply pool_wf_reachable.
  destruct (flush_writes_back_and_releases 0 s.1 s.2 Hwf) as [Hone Hall].
  split.
  - destruct (Hone 0) as (b' & d' & Hrun & Hd & Htable & _ & _ & Hfree).
    + vm_compute. reflexivity.
    + vm_compute. discriminate.
    + vm_compute. reflexivity.
    + exists b', d'. split; [exact Hrun|]. split_and!.
      * rewrite Hd. vm_compute. reflexivity.
      * rewrite Htable. apply lookup_delete_eq.
      * rewrite Hfree. vm_compute. reflexivity.
  - destruct Hall as (b' & d' & Hrun & Htable & Hfree & Hres & _).
    + intros k f Hk.
      assert (Hf : f = 0).
      { destruct (wf_table s.1 Hwf k f Hk) as [Hlt _]. vm_compute in Hlt. lia. }
      subst f. vm_compute. reflexivity.
    + exists b', d'. split; [exact Hrun|]. split_and!.
      * destruct (Hres 0%Z 0) as [_ Hw]; [vm_compute; reflexivity|].
        rewrite Hw; vm_compute; reflexivity.
      * exact Htable.
      * rewrite Hfree. vm_compute. reflexivity.
Defined.

(** ** What the replacer holds *)

(** C4.  Two completed request sequences after which the replacer holds a
    frame it should not: frame 0 with pin count 1 (after the unpin of a page
    fetched twice), and frame 0 that no page-table entry maps to (after the
    delete of an unpinned page). *)
Theorem replacer_holds_pinned_or_unmapped_frame :
  (let s := serve_all 0 (fresh 1) [NewPage; FetchPage 0; UnpinPage 0 false] in
   0 ∈ replacer_ (replacer s.1) ∧ pin_count_ (frame s.1 0) = 1%Z)
  ∧ (let s := serve_all 0 (fresh 1) [NewPage; UnpinPage 0 false; DeletePage 0] in
     0 ∈ replacer_ (replacer s.1) ∧ page_table_ s.1 = ∅).
Proof.
  split; (split; [vm_compute; apply list_elem_of_here | vm_compute; reflexivity]).
Qed.

(** ** NewPgImp and the disk *)

(** What a successful [NewPgImp] leaves in the frame it returns: the new page
    id, pin count 1, clean, and as buffer the zeroed page overwritten by what
    the disk stores for the new page id, the read being the last disk call. *)
Lemma NewPgImp_frame_effect
    (junk page_id : Z) (b b' : BufferPoolManagerInstance) (d d' : DiskManager)
    (frame_id : nat) :
  pool_wf b →
  NewPgImp junk b d = (Some (page_id, frame_id), b', d') →
  page_id = next_page_id_ b
  ∧ next_page_id_ b' = (next_page_id_ b + num_instances_ b)%Z
  ∧ page_id_ (frame b' frame_id) = page_id
  ∧ pin_count_ (frame b' frame_id) = 1%Z
  ∧ is_dirty_ (frame b' frame_id) = false
  ∧ data_ (frame b' frame_id) = default zeroed (disk_pages d' !! page_id)
  ∧ last (disk_calls d') = Some (CallReadPage page_id).
Proof.
  intros Hwf. unfold NewPgImp.
  destruct (decide (pinned_num b = pool_size_ b)); [discriminate|].
  destruct (pick_frame b) as [[victim_id b1]|] eqn:Hpick; [|discriminate].
  pose proof (pick_frame_in_range b b1 victim_id Hwf Hpick) as Hf.
  pose proof (pick_frame_Some b b1 victim_id Hpick)
    as (_ & _ & Hpages & _ & Hnext & Hnum & _).
  simpl. intros [= <- <- <- <-]. simpl.
  unfold frame; simpl.
  rewrite list_lookup_total_insert_eq by (by rewrite Hpages, (wf_pages b Hwf)).
  simpl. rewrite Hnext, Hnum. split_and!; try done.
  by rewrite last_snoc.
Qed.

(** C5.  On a disk that already stores page 0, the first [NewPgImp] of a fresh
    pool allocates page id 0, issues [ReadPage] for it, and returns a frame
    whose buffer is the stored page, not zero bytes. *)
Theorem NewPgImp_reads_new_page_from_disk :
  ∃ b' d',
    NewPgImp 0 (new_BufferPoolManagerInstance 1 1 0) disk_with_page0
      = (Some (0%Z, 0), b', d')
    ∧ disk_calls d' = [CallReadPage 0]
    ∧ data_ (frame b' 0) = repeat x01 PAGE_SIZE
    ∧ data_ (frame b' 0) ≠ zeroed
    ∧ pin_count_ (frame b' 0) = 1%Z
    ∧ is_dirty_ (frame b' 0) = false
    ∧ page_id_ (frame b' 0) = 0%Z.
Proof.
  eexists _, _. split_and!; try (vm_compute; reflexivity).
  intros H. apply (f_equal head) in H. vm_compute in H. discriminate H.
Qed.

(** ** The parallel pool's NewPgImp *)

(** C6.  Two shards of two frames each.  The first [NewPgImp] is served by
    shard 0 (page id 0), and so is the second (page id 2) and, the frames of
    shard 0 being used up, the third goes to shard 1 (page id 1): every call
    starts its probe at shard 0, no starting index is kept or advanced. *)
Theorem Parallel_NewPgImp_restarts_at_shard_0 :
  let p0 := Parallel.new_ParallelBufferPoolManager 2 2 in
  let r1 := Parallel.NewPgImp 0 p0 blank_disk in
  let r2 := Parallel.NewPgImp 0 r1.1.2 r1.2 in
  let r3 := Parallel.NewPgImp 0 r2.1.2 r2.2 in
  r1.1.1 = Some (0, 0%Z, 0)
  ∧ r2.1.1 = Some (0, 2%Z, 1)
  ∧ r3.1.1 = Some (1, 1%Z, 0).
Proof. split_and!; vm_compute; reflexivity. Qed.

(** ** When NewPgImp and FetchPgImp return no frame *)

(** C7, as the code has it.  [NewPgImp] returns no frame exactly when every
    frame holds a page with a non-zero pin count, or the free list is empty and
    the replacer holds no frame.  [FetchPgImp] of a page that is not resident
    returns no frame exactly when the free list is empty and the replacer holds
    no frame. *)
Theorem no_frame_conditions
    (junk page_id : Z) (b : BufferPoolManagerInstance) (d : DiskManager) :
  ((NewPgImp junk b d).1.1 = None ↔
     (∀ i, i < pool_size_ b →
           page_id_ (frame b i) ≠ INVALID_PAGE_ID ∧ pin_count_ (frame b i) ≠ 0%Z)
     ∨ (free_list_ b = [] ∧ replacer_ (replacer b) = []))
  ∧ (page_table_ b !! page_id = None →
     ((FetchPgImp page_id b d).1.1 = None ↔
        free_list_ b = [] ∧ replacer_ (replacer b) = [])).
Proof.
  split.
  - rewrite <- pinned_num_all, <- pick_frame_None. unfold NewPgImp.
    destruct (decide (pinned_num b = pool_size_ b)) as [Hall|Hall]; simpl.
    + split; [by left|done].
    + destruct (pick_frame b) as [[victim_id b1]|]; simpl.
      * split; [done|]. intros [?|?]; done.
      * split; [by right|done].
  - intros Hmiss. rewrite <- pick_frame_None. unfold FetchPgImp. rewrite Hmiss.
    destruct (pick_frame b) as [[frame_id b1]|]; simpl; [|done].
    split; done.
Qed.

Lemma no_frame_conditions_witness :
  (NewPgImp 0 (serve_all 0 (fresh 1) [NewPage]).1 blank_disk).1.1 = None
  ∧ (FetchPgImp 7 (serve_all 0 (fresh 1) [NewPage]).1 blank_disk).1.1 = None.
Proof.
  pose proof (no_frame_conditions 0 7 (serve_all 0 (fresh 1) [NewPage]).1 blank_disk)
    as [Hnew Hfetch].
  split.
  - apply Hnew. right. split; vm_compute; reflexivity.
  - apply Hfetch.
    + vm_compute. reflexivity.
    + split; vm_compute; reflexivity.
Defined.

(** C7 as stated fails: in a pool of one frame, after [NewPage],
    [FetchPage 0] and [UnpinPage 0] the replacer holds frame 0, and [NewPgImp]
    still returns no frame, because the only frame has pin count 1. *)
Lemma NewPgImp_null_with_victim_counterexample :
  let s := serve_all 0 (fresh 1) [NewPage; FetchPage 0; UnpinPage 0 false] in
  ¬ ((NewPgImp 0 s.1 s.2).1.1 = None ↔
       free_list_ s.1 = [] ∧ replacer_ (replacer s.1) = []).
Proof.
  intros s [Hnull _].
  assert (Hrun : (NewPgImp 0 s.1 s.2).1.1 = None) by (vm_compute; reflexivity).
  destruct (Hnull Hrun) as [_ Hrepl]. vm_compute in Hrepl. discriminate Hrepl.
Qed.

(** ** Write-back of a dirty victim *)

(** A fetch that misses fills the frame with what the disk stores for the
    page: the write-back of the frame it takes goes to another page id. *)
Lemma FetchPgImp_miss_reads_disk
    (page_id : Z) (buf : list byte) (b : BufferPoolManagerInstance) (d : DiskManager)
    (frame_id : nat) :
  pool_wf b →
  page_table_ b !! page_id = None →
  disk_pages d !! page_id = Some buf →
  (FetchPgImp page_id b d).1.1 = Some frame_id →
  data_ (frame (FetchPgImp page_id b d).1.2 frame_id) = buf.
Proof.
  intros Hwf Hmiss Hdisk. unfold FetchPgImp. rewrite Hmiss.
  destruct (pick_frame b) as [[f b1]|] eqn:Hpick; [|discriminate].
  pose proof (pick_frame_in_range b b1 f Hwf Hpick) as Hf.
  pose proof (pick_frame_Some b b1 f Hpick) as (_ & _ & Hpages & _).
  simpl. intros [= <-].
  assert (Hframe : frame b1 f = frame b f) by (unfold frame; by rewrite Hpages).
  rewrite Hframe.
  assert (Hread : disk_pages (if is_dirty_ (frame b f)
                              then WritePage (page_id_ (frame b f)) (data_ (frame b f)) d
                              else d) !! page_id = Some buf).
  { destruct (is_dirty_ (frame b f)) eqn:Hd; [|done].
    simpl. rewrite lookup_insert_ne; [done|].
    intros Heq. apply (wf_dirty b Hwf) in Hd. congruence. }
  rewrite Hread. unfold frame; simpl.
  rewrite list_lookup_total_insert_eq; [done|].
  rewrite Hpages, (wf_pages b Hwf). done.
Qed.

Lemma fetch_reads_back_intro
    (page_id : Z) (buf : list byte) (b : BufferPoolManagerInstance) (d : DiskManager) :
  pool_wf b →
  disk_pages d !! page_id = Some buf →
  (∀ g, page_table_ b !! page_id = Some g → data_ (frame b g) = buf) →
  fetch_reads_back page_id buf b d.
Proof.
  intros Hwf Hdisk Hres. unfold fetch_reads_back.
  destruct (page_table_ b !! page_id) as [g|] eqn:Htable.
  - right. exists g. unfold FetchPgImp. rewrite Htable. simpl.
    split; [done|].
    destruct (wf_table b Hwf _ _ Htable) as [Hg _].
    unfold frame at 1; simpl.
    rewrite list_lookup_total_insert_eq by (by rewrite (wf_pages b Hwf)).
    simpl. by apply Hres.
  - destruct (pick_frame b) as [[f b1]|] eqn:Hpick.
    + right. exists f.
      assert (Hsome : (FetchPgImp page_id b d).1.1 = Some f).
      { unfold FetchPgImp. by rewrite Htable, Hpick. }
      split; [done|]. by apply FetchPgImp_miss_reads_disk.
    + left. apply pick_frame_None in Hpick as Hempty.
      split; [|done]. unfold FetchPgImp. by rewrite Htable, Hpick.
Qed.

(** C8.  Let [pick_frame] hand out frame [f], which is dirty and holds the
    resident page [old] with buffer [buf].  Then [FetchPgImp] of a page that is
    not resident, and [NewPgImp] when not every frame is pinned, take [f] and
    issue exactly two disk calls: the write of [buf] at [old] (the frame's own
    page id), then the read for the page that moves in; the disk stores [buf]
    at [old], and a following fetch of [old] reads [buf] back. *)
Theorem dirty_victim_written_back
    (junk page_id : Z) (b b1 : BufferPoolManagerInstance) (d : DiskManager) (f : nat) :
  pool_wf b →
  pick_frame b = Some (f, b1) →
  is_dirty_ (frame b f) = true →
  page_table_ b !! page_id_ (frame b f) = Some f →
  let old := page_id_ (frame b f) in
  let buf := data_ (frame b f) in
  (page_table_ b !! page_id = None →
     let o := FetchPgImp page_id b d in
     o.1.1 = Some f
     ∧ disk_calls o.2 = disk_calls d ++ [CallWritePage old buf; CallReadPage page_id]
     ∧ disk_pages o.2 !! old = Some buf
     ∧ fetch_reads_back old buf o.1.2 o.2)
  ∧ (pinned_num b ≠ pool_size_ b →
     let o := NewPgImp junk b d in
     o.1.1 = Some (next_page_id_ b, f)
     ∧ disk_calls o.2
       = disk_calls d ++ [CallWritePage old buf; CallReadPage (next_page_id_ b)]
     ∧ disk_pages o.2 !! old = Some buf
     ∧ fetch_reads_back old buf o.1.2 o.2).
Proof.
  intros Hwf Hpick Hdirty Hres old buf.
  pose proof (pick_frame_in_range b b1 f Hwf Hpick) as Hf.
  pose proof (pick_frame_Some b b1 f Hpick) as (_ & _ & Hpages & Htable & Hnext & _).
  assert (Hframe : frame b1 f = frame b f) by (unfold frame; by rewrite Hpages).
  assert (Hlt : f < length (pages_ b1)) by (by rewrite Hpages, (wf_pages b Hwf)).
  assert (Hgone : ∀ k, erase_frame f (page_table_ b) !! k ≠ Some f).
  { apply erase_frame_gone. intros k1 k2. apply (pool_wf_table_inj b f k1 k2 Hwf). }
  assert (Hold : erase_frame f (page_table_ b) !! old = None).
  { destruct (erase_frame f (page_table_ b) !! old) as [g|] eqn:E; [|done].
    pose proof (erase_frame_lookup _ _ _ _ E) as E'. unfold old in E'.
    rewrite Hres in E'. injection E' as <-. by destruct (Hgone old). }
  split.
  - intros Hmiss o.
    pose proof (pool_wf_FetchPgImp page_id b d Hwf) as Hwf'.
    assert (Ho : o = FetchPgImp page_id b d) by reflexivity.
    revert Hwf'. rewrite <- Ho. clearbody o. revert Ho.
    unfold FetchPgImp. rewrite Hmiss, Hpick, Hframe, Hdirty. simpl.
    fold old buf. intros -> Hwf'. simpl in *.
    split_and!; try done.
    + by rewrite <- app_assoc.
    + apply lookup_insert_eq.
    + apply fetch_reads_back_intro; [done|apply lookup_insert_eq|].
      simpl. rewrite Htable. intros g Hg. exfalso.
      apply emplace_lookup in Hg. destruct Hg as [(Heq & _ & _)|Hg].
      * rewrite <- Heq in Hmiss. fold old in Hres. congruence.
      * congruence.
  - intros Hsome o.
    pose proof (pool_wf_NewPgImp junk b d Hwf) as Hwf'.
    assert (Ho : o = NewPgImp junk b d) by reflexivity.
    revert Hwf'. rewrite <- Ho. clearbody o. revert Ho.
    assert (Horigin : default junk (find_frame f (page_table_ b)) = old).
    { destruct (find_frame_is_Some f (page_table_ b) old Hres) as [k Hk].
      rewrite Hk. simpl. apply find_frame_Some in Hk.
      by apply (pool_wf_table_inj b f k old Hwf). }
    unfold NewPgImp. rewrite decide_False by done.
    rewrite Hpick. simpl.
    change (frame (set_page_table (erase_frame f (page_table_ b1)) b1) f)
      with (frame b1 f).
    rewrite Htable, Horigin, Hframe, Hdirty, Hnext. simpl.
    fold old buf. intros -> Hwf'. simpl in *.
    split_and!; try done.
    + by rewrite <- app_assoc.
    + apply lookup_insert_eq.
    + apply fetch_reads_back_intro; [done|apply lookup_insert_eq|].
      simpl. intros g Hg.
      apply emplace_lookup in Hg. destruct Hg as [(Heq & -> & _)|Hg]; [|congruence].
      unfold frame; simpl. rewrite list_lookup_total_insert_eq by done.
      simpl. rewrite <- Heq. by rewrite lookup_insert_eq.
Qed.

Lemma dirty_victim_written_back_witness :
  let s := serve_all 0 (new_BufferPoolManagerInstance 1 1 0, disk_with_page0)
             [FetchPage 0; UnpinPage 0 true] in
  ((FetchPgImp 5 s.1 s.2).1.1 = Some 0
   ∧ disk_pages (FetchPgImp 5 s.1 s.2).2 !! 0%Z = Some (repeat x01 PAGE_SIZE))
  ∧ ((NewPgImp 0 s.1 s.2).1.1 = Some (0%Z, 0)
     ∧ disk_pages (NewPgImp 0 s.1 s.2).2 !! 0%Z = Some (repeat x01 PAGE_SIZE)).
Proof.
  intros s.
  assert (Hwf : pool_wf s.1) by apply pool_wf_reachable.
  destruct (dirty_victim_written_back 0 5 s.1 (set_replacer (mkLRU 1 [] ∅) s.1) s.2 0 Hwf)
    as [Hfetch Hnew].
  - vm_compute. reflexivity.
  - vm_compute. reflexivity.
  - vm_compute. reflexivity.
  - assert (Hold : page_id_ (frame s.1 0) = 0%Z) by (vm_compute; reflexivity).
    assert (Hbuf : data_ (frame s.1 0) = repeat x01 PAGE_SIZE)
      by (vm_compute; reflexivity).
    rewrite Hold, Hbuf in Hfetch, Hnew.
    split.
    + destruct Hfetch as (Hf & _ & Hd & _); [vm_compute; reflexivity|].
      split; [exact Hf|exact Hd].
    + destruct Hnew as (Hf & _ & Hd & _); [vm_compute; lia|].
      split; [rewrite Hf; vm_compute; reflexivity|exact Hd].
Defined.

(** ** DeletePgImp *)

(** C9.  [DeletePgImp] first issues the deallocate call for the page id.
    Then: a page that is not resident gives [true] and no other change; a
    resident page with a positive pin count gives [false]; a resident page
    with pin count 0 is written back at its page id when dirty, its frame is
    reset (invalid page id, clean, pin count 0, zeroed buffer), its entry
    leaves the page table, the frame is appended to the free list and the
    result is [true]. *)
Theorem DeletePgImp_cases
    (page_id : Z) (b : BufferPoolManagerInstance) (d : DiskManager) :
  (page_table_ b !! page_id = None →
     DeletePgImp page_id b d = (true, b, DeallocatePage page_id d))
  ∧ (∀ frame_id,
       page_table_ b !! page_id = Some frame_id →
       (pin_count_ (frame b frame_id) > 0)%Z →
       DeletePgImp page_id b d = (false, b, DeallocatePage page_id d))
  ∧ (∀ frame_id,
       page_table_ b !! page_id = Some frame_id →
       frame_id < length (pages_ b) →
       pin_count_ (frame b frame_id) = 0%Z →
       ∃ b' d',
         DeletePgImp page_id b d = (true, b', d')
         ∧ d' = (if is_dirty_ (frame b frame_id)
                 then WritePage page_id (data_ (frame b frame_id))
                        (DeallocatePage page_id d)
                 else DeallocatePage page_id d)
         ∧ data_ (frame b' frame_id) = zeroed
         ∧ page_id_ (frame b' frame_id) = INVALID_PAGE_ID
         ∧ is_dirty_ (frame b' frame_id) = false
         ∧ pin_count_ (frame b' frame_id) = 0%Z
         ∧ (∀ g, g ≠ frame_id → frame b' g = frame b g)
         ∧ page_table_ b' = delete page_id (page_table_ b)
         ∧ free_list_ b' = free_list_ b ++ [frame_id]).
Proof.
  split_and!.
  - intros Hnone. unfold DeletePgImp. by rewrite Hnone.
  - intros frame_id Hres Hpin. unfold DeletePgImp. rewrite Hres.
    destruct (decide (pin_count_ (frame b frame_id) = 0%Z)); [lia|done].
  - intros frame_id Hres Hlt Hpin. unfold DeletePgImp. rewrite Hres.
    destruct (decide (pin_count_ (frame b frame_id) = 0%Z)); [|done].
    set (page := frame b frame_id).
    set (b1 := set_pages (<[frame_id := released page]> (pages_ b)) b).
    set (b' := set_free_list (free_list_ b ++ [frame_id])
                 (set_page_table (delete page_id (page_table_ b)) b1)).
    assert (Hf : frame b' frame_id = released page)
      by apply (frame_insert_eq b frame_id _ Hlt).
    exists b'. eexists. split; [reflexivity|].
    rewrite Hf. split_and!; try reflexivity.
    intros g Hg. apply (frame_insert_ne b frame_id g). congruence.
Qed.

Lemma DeletePgImp_cases_witness :
  DeletePgImp 5 (fresh 2).1 blank_disk
    = (true, (fresh 2).1, DeallocatePage 5 blank_disk)
  ∧ DeletePgImp 0 (serve_all 0 (fresh 2) [NewPage]).1 blank_disk
    = (false, (serve_all 0 (fresh 2) [NewPage]).1, DeallocatePage 0 blank_disk)
  ∧ ∃ b' d',
      DeletePgImp 0 (serve_all 0 (fresh 2) [NewPage; UnpinPage 0 true]).1 blank_disk
        = (true, b', d')
      ∧ page_table_ b' !! 0%Z = None
      ∧ free_list_ b' = [1; 0].
Proof.
  split_and!.
  - apply (proj1 (DeletePgImp_cases 5 (fresh 2).1 blank_disk)).
    vm_compute. reflexivity.
  - apply (proj1 (proj2 (DeletePgImp_cases 0 (serve_all 0 (fresh 2) [NewPage]).1
                           blank_disk)) 0).
    + vm_compute. reflexivity.
    + vm_compute. reflexivity.
  - destruct (proj2 (proj2 (DeletePgImp_cases 0
                (serve_all 0 (fresh 2) [NewPage; UnpinPage 0 true]).1 blank_disk)) 0)
      as (b' & d' & Hrun & _ & _ & _ & _ & _ & _ & Htable & Hfree).
    + vm_compute. reflexivity.
    + vm_compute. lia.
    + vm_compute. reflexivity.
    + exists b', d'. split; [exact Hrun|]. split.
      * rewrite Htable. apply lookup_delete_eq.
      * rewrite Hfree. vm_compute. reflexivity.
Defined.

(** ** FetchPgImp when the page is resident *)

(** C10.  Fetching a page that is in the page table issues no disk call and
    leaves the disk as it was, returns the frame the table names, adds exactly
    1 to that frame's pin count, and leaves its buffer, page id and dirty flag,
    the page table, the free list and every other frame unchanged. *)
Theorem FetchPgImp_resident_frame_effect
    (page_id : Z) (b : BufferPoolManagerInstance) (d : DiskManager) (frame_id : nat) :
  page_table_ b !! page_id = Some frame_id →
  frame_id < length (pages_ b) →
  ∃ b',
    FetchPgImp page_id b d = (Some frame_id, b', d)
    ∧ pin_count_ (frame b' frame_id) = (pin_count_ (frame b frame_id) + 1)%Z
    ∧ data_ (frame b' frame_id) = data_ (frame b frame_id)
    ∧ page_id_ (frame b' frame_id) = page_id_ (frame b frame_id)
    ∧ is_dirty_ (frame b' frame_id) = is_dirty_ (frame b frame_id)
    ∧ page_table_ b' = page_table_ b
    ∧ free_list_ b' = free_list_ b
    ∧ length (pages_ b') = length (pages_ b)
    ∧ ∀ g, g ≠ frame_id → frame b' g = frame b g.
Proof.
  intros Hres Hlt. unfold FetchPgImp. rewrite Hres.
  set (page1 := set_pin_count (pin_count_ (frame b frame_id) + 1)%Z (frame b frame_id)).
  set (b1 := set_pages (<[frame_id := page1]> (pages_ b)) b).
  exists (set_replacer (Pin frame_id (replacer b1)) b1).
  assert (Hf : frame (set_replacer (Pin frame_id (replacer b1)) b1) frame_id = page1)
    by (apply (frame_insert_eq b frame_id page1 Hlt)).
  rewrite Hf. split_and!; try reflexivity.
  - simpl. apply length_insert.
  - intros g Hg. apply (frame_insert_ne b frame_id g page1). congruence.
Qed.

Lemma FetchPgImp_resident_frame_effect_witness :
  ∃ b',
    FetchPgImp 0 (serve_all 0 (fresh 2) [NewPage; UnpinPage 0 true]).1 blank_disk
      = (Some 0, b', blank_disk)
    ∧ pin_count_ (frame b' 0) = 1%Z
    ∧ is_dirty_ (frame b' 0) = true.
Proof.
  destruct (FetchPgImp_resident_frame_effect 0
              (serve_all 0 (fresh 2) [NewPage; UnpinPage 0 true]).1 blank_disk 0)
    as (b' & Hrun & Hpin & _ & _ & Hdirty & _).
  - vm_compute. reflexivity.
  - vm_compute. lia.
  - exists b'. split; [exact Hrun|]. split.
    + rewrite Hpin. vm_compute. reflexivity.
    + rewrite Hdirty. vm_compute. reflexivity.
Defined.

(** * Further properties of the code *)

(** ** lru_replacer.cpp: the replacer on its own *)

Lemma list_erase_length (f : nat) (l : list nat) : length (list_erase f l) ≤ length l.
Proof.
  induction l as [|x l IH]; simpl; [done|].
  destruct (decide (x = f)); simpl; lia.
Qed.

Lemma list_erase_snoc (f : nat) (l : list nat) : f ∉ l → list_erase f (l ++ [f]) = l.
Proof.
  induction l as [|x l IH]; simpl; intros Hf.
  - by rewrite decide_True.
  - apply not_elem_of_cons in Hf. destruct Hf as [Hne Hf].
    rewrite decide_False by done. by rewrite IH.
Qed.

(** Well formed and within capacity. *)
Lemma replacer_step_bounded (r : LRUReplacer) (c : replacer_call) :
  LRU_wf r → Size r ≤ max_pages_ r →
  LRU_wf (replacer_step r c)
  ∧ Size (replacer_step r c) ≤ max_pages_ (replacer_step r c)
  ∧ max_pages_ (replacer_step r c) = max_pages_ r.
Proof.
  intros Hwf Hsize. unfold Size in *. destruct c as [|f|f]; simpl.
  - split; [by apply LRU_wf_Victim|]. unfold Victim.
    destruct (replacer_ r) as [|x l] eqn:E; simpl; rewrite ?E; simpl in *; split; lia.
  - split; [by apply LRU_wf_Pin|]. unfold Pin.
    destruct (decide (f ∈ map_ r)); simpl; [|done].
    pose proof (list_erase_length f (replacer_ r)). split; lia.
  - split; [by apply LRU_wf_Unpin|]. unfold Unpin.
    destruct (decide (f ∈ map_ r)); [done|].
    destruct (decide (length (replacer_ r) < max_pages_ r)); simpl; [|done].
    rewrite length_app. simpl. split; lia.
Qed.

Lemma replacer_run_bounded (cs : list replacer_call) (r : LRUReplacer) :
  LRU_wf r → Size r ≤ max_pages_ r →
  LRU_wf (replacer_run r cs) ∧ Size (replacer_run r cs) ≤ max_pages_ r.
Proof.
  revert r. induction cs as [|c cs IH]; intros r Hwf Hsize; [done|].
  destruct (replacer_step_bounded r c Hwf Hsize) as (Hwf' & Hsize' & Hmax).
  simpl. rewrite <- Hmax. by apply IH.
Qed.

Lemma replacer_run_is_wf (num_pages : nat) (cs : list replacer_call) :
  LRU_wf (replacer_run (new_LRUReplacer num_pages) cs).
Proof.
  apply replacer_run_bounded; [apply LRU_wf_new|]. unfold Size. simpl. lia.
Qed.

(** X1.  Whatever calls of [Victim], [Pin] and [Unpin] a fresh replacer for
    [num_pages] frames receives, its list never names a frame twice, the keys
    of [map_] are exactly the frames of the list, and [Size] never exceeds
    [num_pages]. *)
Theorem replacer_run_invariant (num_pages : nat) (cs : list replacer_call) :
  let r := replacer_run (new_LRUReplacer num_pages) cs in
  NoDup (replacer_ r)
  ∧ (∀ f, f ∈ map_ r ↔ f ∈ replacer_ r)
  ∧ Size r ≤ num_pages.
Proof.
  destruct (replacer_run_bounded cs (new_LRUReplacer num_pages))
    as ([Hnd Hmap] & Hsize).
  - apply LRU_wf_new.
  - unfold Size. simpl. lia.
  - simpl in *. done.
Qed.

(** X2.  [Unpin] of the same frame twice in a row leaves the replacer as one
    [Unpin] does: the second call finds the frame in [map_], or finds the
    replacer as full as the first did. *)
Theorem Unpin_idempotent (f : nat) (r : LRUReplacer) :
  Unpin f (Unpin f r) = Unpin f r.
Proof.
  unfold Unpin at 2 3.
  destruct (decide (f ∈ map_ r)) as [Hin|Hout].
  - unfold Unpin. by rewrite decide_True.
  - destruct (decide (length (replacer_ r) < max_pages_ r)) as [Hroom|Hfull].
    + unfold Unpin. simpl. rewrite decide_True; [done|].
      apply elem_of_union. right. by apply elem_of_singleton.
    + unfold Unpin. rewrite decide_False by done. by rewrite decide_False.
Qed.

Lemma drain_all (n : nat) (r : LRUReplacer) :
  length (replacer_ r) ≤ n → drain n r = replacer_ r.
Proof.
  revert r. induction n as [|n IH]; intros r Hlen.
  - destruct (replacer_ r); [done|simpl in Hlen; lia].
  - simpl. unfold Victim. destruct (replacer_ r) as [|f l] eqn:E; [done|].
    simpl in Hlen. rewrite IH; simpl; [done|lia].
Qed.

Lemma Unpin_all (l : list nat) (r : LRUReplacer) :
  LRU_wf r →
  NoDup l →
  (∀ f, f ∈ l → f ∉ replacer_ r) →
  length (replacer_ r) + length l ≤ max_pages_ r →
  replacer_ (replacer_run r (CallUnpin <$> l)) = replacer_ r ++ l.
Proof.
  revert r. induction l as [|f l IH]; intros r Hwf Hnd Hfresh Hroom.
  { simpl. by rewrite app_nil_r. }
  apply NoDup_cons in Hnd. destruct Hnd as [Hf Hnd].
  assert (Hout : f ∉ map_ r).
  { intros Hin. apply (proj2 Hwf) in Hin. revert Hin. apply Hfresh. by left. }
  simpl in *.
  assert (Hstep : Unpin f r
                  = mkLRU (max_pages_ r) (replacer_ r ++ [f]) (map_ r ∪ {[f]})).
  { unfold Unpin. rewrite decide_False by done. rewrite decide_True by lia. done. }
  rewrite IH; rewrite ?Hstep; simpl.
  - by rewrite <- app_assoc.
  - rewrite <- Hstep. by apply LRU_wf_Unpin.
  - done.
  - intros g Hg Hin. apply elem_of_app in Hin. destruct Hin as [Hin|Hin].
    + revert Hin. apply Hfresh. by right.
    + apply list_elem_of_singleton in Hin. by subst g.
  - rewrite length_app. simpl. lia.
Qed.

(** X3.  Frames leave in the order they were unpinned: after distinct frames
    [l], no more than the capacity, are unpinned into a fresh replacer, the
    next calls of [Victim] hand out exactly [l], in that order, and then find
    the replacer empty. *)
Theorem Victim_order_is_Unpin_order (num_pages n : nat) (l : list nat) :
  NoDup l →
  length l ≤ num_pages →
  length l ≤ n →
  let r := replacer_run (new_LRUReplacer num_pages) (CallUnpin <$> l) in
  drain n r = l
  ∧ (Victim (replacer_run r (replicate (length l) CallVictim))).1 = None.
Proof.
  intros Hnd Hcap Hn r.
  assert (Hr : replacer_ r = l).
  { unfold r. rewrite Unpin_all; try done.
    - apply LRU_wf_new.
    - intros f _ Hin. simpl in Hin. by apply elem_of_nil in Hin. }
  split.
  - rewrite drain_all; [done|]. by rewrite Hr.
  - clearbody r. revert r Hr. clear. induction l as [|f l IH]; intros r Hr; simpl.
    + unfold Victim. by rewrite Hr.
    + apply IH. unfold Victim. by rewrite Hr.
Qed.

Lemma Victim_order_is_Unpin_order_witness :
  drain 5 (replacer_run (new_LRUReplacer 3) (CallUnpin <$> [2; 0; 1])) = [2; 0; 1].
Proof.
  apply (Victim_order_is_Unpin_order 3 5 [2; 0; 1]).
  - apply (bool_decide_unpack _). vm_compute. exact I.
  - vm_compute. lia.
  - vm_compute. lia.
Defined.

Lemma Victim_result (r : LRUReplacer) (f : nat) :
  (Victim r).1 = Some f → f ∈ replacer_ r.
Proof.
  unfold Victim. destruct (replacer_ r) as [|x l]; simpl; [discriminate|].
  intros [= ->]. by left.
Qed.

Lemma Victim_subset (r : LRUReplacer) (x : nat) :
  x ∈ replacer_ (Victim r).2 → x ∈ replacer_ r.
Proof.
  unfold Victim. destruct (replacer_ r) as [|y l] eqn:E; simpl.
  - by rewrite E.
  - intros Hx. by right.
Qed.

Lemma Pin_removes (f : nat) (r : LRUReplacer) : LRU_wf r → f ∉ replacer_ (Pin f r).
Proof.
  intros [Hnd Hmap]. unfold Pin.
  destruct (decide (f ∈ map_ r)) as [Hin|Hout]; simpl.
  - rewrite list_erase_elem by done. tauto.
  - by rewrite <- Hmap.
Qed.

(** X4.  A pinned frame is not a victim: after [Pin f], whatever calls follow,
    as long as none of them is [Unpin f], the replacer does not hold [f] and
    [Victim] does not hand it out. *)
Theorem pinned_frame_never_victim (f : nat) (r : LRUReplacer) (cs : list replacer_call) :
  LRU_wf r →
  Forall (λ c, c ≠ CallUnpin f) cs →
  (f ∉ replacer_ (replacer_run (Pin f r) cs))
  ∧ (Victim (replacer_run (Pin f r) cs)).1 ≠ Some f.
Proof.
  intros Hwf Hcs.
  assert (Hgen : ∀ r0, LRU_wf r0 → f ∉ replacer_ r0 →
            f ∉ replacer_ (replacer_run r0 cs)).
  { induction Hcs as [|c cs Hc Hcs IH]; intros r0 Hwf0 Hout; [done|].
    simpl. apply IH.
    - destruct c; simpl;
        [by apply LRU_wf_Victim|by apply LRU_wf_Pin|by apply LRU_wf_Unpin].
    - destruct c as [|g|g]; simpl.
      + intros Hin. by apply Victim_subset in Hin.
      + intros Hin. by apply Pin_subset in Hin.
      + intros Hin. apply Unpin_elem in Hin. destruct Hin as [Hin| ->]; [done|].
        by apply Hc. }
  assert (Hout : f ∉ replacer_ (replacer_run (Pin f r) cs)).
  { apply Hgen; [by apply LRU_wf_Pin|by apply Pin_removes]. }
  split; [done|]. intros Hv. by apply Victim_result in Hv.
Qed.

Lemma pinned_frame_never_victim_witness :
  (Victim (replacer_run (Pin 1 (replacer_run (new_LRUReplacer 3)
                                  [CallUnpin 1; CallUnpin 2]))
             [CallUnpin 0; CallVictim; CallPin 0])).1 ≠ Some 1.
Proof.
  apply (pinned_frame_never_victim 1
           (replacer_run (new_LRUReplacer 3) [CallUnpin 1; CallUnpin 2])
           [CallUnpin 0; CallVictim; CallPin 0]).
  - pose proof (replacer_run_is_wf 3 [CallUnpin 1; CallUnpin 2]) as H. exact H.
  - repeat constructor; discriminate.
Defined.

(** X5.  [Unpin] followed by [Pin] of a frame the replacer did not hold gives
    back the replacer as it was, list order, keys and capacity: the frame is
    appended and removed again, or, when the replacer is full, never added. *)
Theorem Unpin_then_Pin_restores (f : nat) (r : LRUReplacer) :
  LRU_wf r →
  f ∉ replacer_ r →
  Pin f (Unpin f r) = r.
Proof.
  intros [Hnd Hmap] Hout.
  assert (Hkey : f ∉ map_ r) by (by rewrite Hmap).
  destruct r as [cap l m]. simpl in *.
  unfold Unpin; simpl. rewrite decide_False by done.
  destruct (decide (length l < cap)) as [Hroom|Hfull].
  - unfold Pin; simpl.
    rewrite decide_True by (apply elem_of_union; right; by apply elem_of_singleton).
    rewrite list_erase_snoc by done. f_equal.
    apply set_eq. intros x.
    rewrite elem_of_difference, elem_of_union, elem_of_singleton.
    split; [intros [[Hx|Hx] Hne]; done|].
    intros Hx. split; [by left|]. by intros ->.
  - unfold Pin; simpl. by rewrite decide_False.
Qed.

Lemma Unpin_then_Pin_restores_witness :
  Pin 2 (Unpin 2 (replacer_run (new_LRUReplacer 3) [CallUnpin 1; CallUnpin 0]))
  = replacer_run (new_LRUReplacer 3) [CallUnpin 1; CallUnpin 0].
Proof.
  apply (Unpin_then_Pin_restores 2
           (replacer_run (new_LRUReplacer 3) [CallUnpin 1; CallUnpin 0])).
  - apply replacer_run_is_wf.
  - assert (E : replacer_ (replacer_run (new_LRUReplacer 3) [CallUnpin 1; CallUnpin 0])
                = [1; 0]) by (vm_compute; reflexivity).
    rewrite E, !not_elem_of_cons. split_and!; [lia|lia|apply not_elem_of_nil].
Defined.

(** ** buffer_pool_manager_instance.cpp: states a client can reach *)

Lemma pool_size_serve (junk : Z) (s : BufferPoolManagerInstance * DiskManager)
    (r : request) :
  pool_size_ (serve junk s r).1 = pool_size_ s.1.
Proof.
  destruct s as [b d]. destruct r; simpl.
  - unfold FetchPgImp. destruct (page_table_ b !! page_id); simpl; [done|].
    destruct (pick_frame b) as [[f b1]|] eqn:Hpick; simpl; [|done].
    by apply pick_frame_Some in Hpick as (_ & -> & _).
  - unfold NewPgImp. destruct (decide (pinned_num b = pool_size_ b)); simpl; [done|].
    destruct (pick_frame b) as [[f b1]|] eqn:Hpick; simpl; [|done].
    by apply pick_frame_Some in Hpick as (_ & -> & _).
  - unfold UnpinPgImp. destruct (page_table_ b !! page_id); simpl; [|done].
    by destruct (decide (pin_count_ (frame b n) > 0)%Z).
  - unfold FlushPgImp. destruct (page_table_ b !! page_id); simpl; [|done].
    by destruct (decide (page_id = INVALID_PAGE_ID)).
  - done.
  - unfold DeletePgImp. destruct (page_table_ b !! page_id); simpl; [|done].
    by destruct (decide (pin_count_ (frame b n) = 0%Z)).
Qed.

Lemma pool_size_serve_all (junk : Z) (rs : list request)
    (s : BufferPoolManagerInstance * DiskManager) :
  pool_size_ (serve_all junk s rs).1 = pool_size_ s.1.
Proof.
  revert s. induction rs as [|r rs IH]; intros s; [done|].
  simpl. rewrite IH. apply pool_size_serve.
Qed.

(** X6.  On every state reached from the constructor by any sequence of
    requests: the array keeps its [pool_size] frames; a page-table entry names
    a frame of the array that holds exactly that page; no two page ids share a
    frame; the free list and the replacer only name frames of the array; and a
    dirty frame is always the frame the page table names for its page. *)
Theorem reachable_page_table_matches_frames
    (junk : Z) (pool_size : nat) (num_instances instance_index : Z)
    (d : DiskManager) (rs : list request) :
  let b := (serve_all junk
              (new_BufferPoolManagerInstance pool_size num_instances instance_index, d)
              rs).1 in
  length (pages_ b) = pool_size
  ∧ (∀ pid f, page_table_ b !! pid = Some f →
              f < pool_size ∧ page_id_ (frame b f) = pid)
  ∧ (∀ pid1 pid2 f, page_table_ b !! pid1 = Some f →
                    page_table_ b !! pid2 = Some f → pid1 = pid2)
  ∧ (∀ f, f ∈ free_list_ b → f < pool_size)
  ∧ (∀ f, f ∈ replacer_ (replacer b) → f < pool_size)
  ∧ (∀ f, is_dirty_ (frame b f) = true →
          page_table_ b !! page_id_ (frame b f) = Some f).
Proof.
  intros b.
  assert (Hwf : pool_wf b) by apply pool_wf_reachable.
  assert (Hsize : pool_size_ b = pool_size) by apply pool_size_serve_all.
  rewrite <- Hsize. split_and!.
  - apply (wf_pages b Hwf).
  - apply (wf_table b Hwf).
  - intros pid1 pid2 f. apply (pool_wf_table_inj b f pid1 pid2 Hwf).
  - apply (wf_free b Hwf).
  - apply (wf_replacer b Hwf).
  - apply (wf_dirty b Hwf).
Qed.

Lemma pick_frame_free (b b1 : BufferPoolManagerInstance) (f : nat) :
  pick_frame b = Some (f, b1) →
  free_list_ b = f :: free_list_ b1
  ∨ (free_list_ b = [] ∧ free_list_ b1 = [] ∧ (Victim (replacer b)).1 = Some f).
Proof.
  unfold pick_frame, Victim.
  destruct (free_list_ b) as [|x rest] eqn:Efree.
  - destruct (replacer_ (replacer b)) as [|y l]; [discriminate|].
    intros [= <- <-]. right. simpl. by rewrite Efree.
  - intros [= <- <-]. by left.
Qed.

Lemma free_wf_install (b b1 b' : BufferPoolManagerInstance) (f : nat) (pid : Z) :
  pool_wf b → free_wf b →
  pick_frame b = Some (f, b1) →
  free_list_ b' = free_list_ b1 →
  page_table_ b' = emplace pid f (erase_frame f (page_table_ b)) →
  free_wf b'.
Proof.
  intros Hwf [Hnd Hdisj] Hpick Hfree Htable.
  apply pick_frame_free in Hpick. unfold free_wf. rewrite Hfree, Htable.
  destruct Hpick as [Hcons|(_ & -> & _)].
  - rewrite Hcons in Hnd, Hdisj. apply NoDup_cons in Hnd. destruct Hnd as [Hf Hnd].
    split; [done|]. intros k g Hk. apply emplace_lookup in Hk.
    destruct Hk as [(_ & -> & _)|Hk]; [done|].
    apply erase_frame_lookup in Hk. apply Hdisj in Hk.
    intros Hin. apply Hk. by right.
  - split; [apply NoDup_nil_2|]. intros k g _. apply not_elem_of_nil.
Qed.

Lemma free_wf_release (b b' : BufferPoolManagerInstance) (page_id : Z) (f : nat) :
  pool_wf b → free_wf b →
  page_table_ b !! page_id = Some f →
  free_list_ b' = free_list_ b ++ [f] →
  page_table_ b' = delete page_id (page_table_ b) →
  free_wf b'.
Proof.
  intros Hwf [Hnd Hdisj] Hres Hfree Htable. unfold free_wf. rewrite Hfree, Htable.
  split.
  - apply NoDup_app. split_and!; [done| |apply NoDup_singleton].
    intros g Hg Hgf. apply list_elem_of_singleton in Hgf. subst g.
    by apply (Hdisj page_id f).
  - intros k g Hk. apply lookup_delete_Some in Hk. destruct Hk as [Hne Hk].
    intros Hin. apply elem_of_app in Hin. destruct Hin as [Hin|Hin].
    + by apply (Hdisj k g).
    + apply list_elem_of_singleton in Hin. subst g.
      apply Hne. by apply (pool_wf_table_inj b f page_id k Hwf).
Qed.

Lemma free_wf_serve (junk : Z) (s : BufferPoolManagerInstance * DiskManager)
    (r : request) :
  pool_wf s.1 → free_wf s.1 → free_wf (serve junk s r).1.
Proof.
  destruct s as [b d]. simpl. intros Hwf Hfree. destruct r; simpl.
  - unfold FetchPgImp. destruct (page_table_ b !! page_id) eqn:Hres; simpl; [done|].
    destruct (pick_frame b) as [[f b1]|] eqn:Hpick; simpl; [|done].
    pose proof (pick_frame_Some b b1 f Hpick) as (_ & _ & _ & Htable & _).
    eapply (free_wf_install b b1 _ f page_id); try done. simpl. by rewrite Htable.
  - unfold NewPgImp. destruct (decide (pinned_num b = pool_size_ b)); simpl; [done|].
    destruct (pick_frame b) as [[f b1]|] eqn:Hpick; simpl; [|done].
    pose proof (pick_frame_Some b b1 f Hpick) as (_ & _ & _ & Htable & _).
    eapply (free_wf_install b b1 _ f (next_page_id_ b1)); try done.
    simpl. by rewrite Htable.
  - unfold UnpinPgImp. destruct (page_table_ b !! page_id); simpl; [|done].
    by destruct (decide (pin_count_ (frame b n) > 0)%Z).
  - unfold FlushPgImp. destruct (page_table_ b !! page_id) eqn:Hres; simpl; [|done].
    destruct (decide (page_id = INVALID_PAGE_ID)); simpl; [done|].
    by eapply (free_wf_release b _ page_id n).
  - split; simpl; [apply NoDup_seq|]. intros k g Hk. by rewrite lookup_empty in Hk.
  - unfold DeletePgImp. destruct (page_table_ b !! page_id) eqn:Hres; simpl; [|done].
    destruct (decide (pin_count_ (frame b n) = 0%Z)); simpl; [|done].
    by eapply (free_wf_release b _ page_id n).
Qed.

(** X7.  On every reachable state the free list names no frame twice, and no
    frame on the free list is the target of a page-table entry: a frame is
    never at once free and holding a resident page. *)
Theorem reachable_free_list_disjoint_from_page_table
    (junk : Z) (pool_size : nat) (num_instances instance_index : Z)
    (d : DiskManager) (rs : list request) :
  let b := (serve_all junk
              (new_BufferPoolManagerInstance pool_size num_instances instance_index, d)
              rs).1 in
  NoDup (free_list_ b)
  ∧ ∀ pid f, page_table_ b !! pid = Some f → f ∉ free_list_ b.
Proof.
  assert (Hgen : ∀ s, pool_wf s.1 → free_wf s.1 → free_wf (serve_all junk s rs).1).
  { induction rs as [|r rs IH]; intros s Hwf Hfree; [done|].
    simpl. apply IH; [by apply pool_wf_serve|by apply free_wf_serve]. }
  apply (Hgen (_, d)); simpl.
  - apply pool_wf_new.
  - split; simpl; [apply NoDup_seq|]. intros k g Hk. by rewrite lookup_empty in Hk.
Qed.

(** A property of single frames that every stored frame has. *)
Lemma insert_total_cases (l : list Page) (f i : nat) (p : Page) :
  <[f := p]> l !!! i = p ∨ <[f := p]> l !!! i = l !!! i.
Proof.
  destruct (decide (f < length l)) as [Hlt|Hge].
  - destruct (decide (i = f)) as [->|Hne].
    + left. by apply list_lookup_total_insert_eq.
    + right. by apply list_lookup_total_insert_ne.
  - right. rewrite list_insert_ge; [done|lia].
Qed.

Lemma frames_pointwise_insert (P : Page → Prop) (b b' : BufferPoolManagerInstance)
    (f : nat) (p : Page) :
  (∀ i, P (frame b i)) → pages_ b' = <[f := p]> (pages_ b) → P p →
  ∀ i, P (frame b' i).
Proof.
  intros Hall Hpages Hp i. unfold frame. rewrite Hpages.
  destruct (insert_total_cases (pages_ b) f i p) as [-> | ->]; [done|apply Hall].
Qed.

Lemma flush_items_pointwise (P : Page → Prop) (items : list (Z * nat)) :
  P new_Page →
  ∀ (pages : list Page) (d : DiskManager),
    (∀ i, P (pages !!! i)) →
    ∀ i, P ((foldl flush_item (pages, d) items).1 !!! i).
Proof.
  intros Hnew. induction items as [|[k f] rest IH]; intros pages d Hall i; [apply Hall|].
  simpl. apply IH. intros j. simpl.
  destruct (insert_total_cases pages f j (released (pages !!! f))) as [-> | ->];
    [done|apply Hall].
Qed.

Lemma frames_pointwise_serve (P : Page → Prop) (junk : Z)
    (s : BufferPoolManagerInstance * DiskManager) (r : request) :
  P new_Page →
  (∀ buf pid p, P (set_data buf (installed pid p))) →
  (∀ p, P p → P (set_pin_count (pin_count_ p + 1)%Z p)) →
  (∀ pid dirty p, r = UnpinPage pid dirty → P p → (pin_count_ p > 0)%Z →
     P (if dirty then set_is_dirty dirty (set_pin_count (pin_count_ p - 1)%Z p)
        else set_pin_count (pin_count_ p - 1)%Z p)) →
  (∀ i, P (frame s.1 i)) →
  ∀ i, P (frame (serve junk s r).1 i).
Proof.
  destruct s as [b d]. simpl. intros Hnew Hinst Hpin Hunpin Hall.
  destruct r; simpl.
  - unfold FetchPgImp. destruct (page_table_ b !! page_id) as [f|]; simpl.
    + eapply (frames_pointwise_insert P b _ f); [done|reflexivity|]. apply Hpin, Hall.
    + destruct (pick_frame b) as [[f b1]|] eqn:Hpick; simpl; [|done].
      pose proof (pick_frame_Some b b1 f Hpick) as (_ & _ & Hpages & _).
      eapply (frames_pointwise_insert P b _ f); [done| |apply Hinst].
      simpl. by rewrite Hpages.
  - unfold NewPgImp. destruct (decide (pinned_num b = pool_size_ b)); simpl; [done|].
    destruct (pick_frame b) as [[f b1]|] eqn:Hpick; simpl; [|done].
    pose proof (pick_frame_Some b b1 f Hpick) as (_ & _ & Hpages & _).
    eapply (frames_pointwise_insert P b _ f); [done| |apply Hinst].
    simpl. by rewrite Hpages.
  - unfold UnpinPgImp. destruct (page_table_ b !! page_id) as [f|]; simpl; [|done].
    destruct (decide (pin_count_ (frame b f) > 0)%Z) as [Hpos|Hpos]; simpl; [|done].
    eapply (frames_pointwise_insert P b _ f); [done|reflexivity|].
    by apply (Hunpin page_id is_dirty).
  - unfold FlushPgImp. destruct (page_table_ b !! page_id) as [f|]; simpl; [|done].
    destruct (decide (page_id = INVALID_PAGE_ID)); simpl; [done|].
    by eapply (frames_pointwise_insert P b _ f); [done|reflexivity|].
  - intros i. unfold frame. simpl. by apply flush_items_pointwise.
  - unfold DeletePgImp. destruct (page_table_ b !! page_id) as [f|]; simpl; [|done].
    destruct (decide (pin_count_ (frame b f) = 0%Z)); simpl; [|done].
    by eapply (frames_pointwise_insert P b _ f); [done|reflexivity|].
Qed.

Lemma new_frames (pool_size : nat) (num_instances instance_index : Z) (i : nat) :
  frame (new_BufferPoolManagerInstance pool_size num_instances instance_index) i
  = new_Page.
Proof.
  unfold frame; simpl. destruct (decide (i < pool_size)) as [Hlt|Hge].
  - apply list_lookup_total_correct. by apply lookup_replicate_2.
  - rewrite list_lookup_total_alt, (lookup_ge_None_2 _ i); [done|].
    rewrite length_replicate. lia.
Qed.


Lemma flush_items_clean (items : list (Z * nat)) (pages : list Page) (d : DiskManager) :
  (∀ i, is_dirty_ (pages !!! i) = false) →
  (foldl flush_item (pages, d) items).2 = d.
Proof.
  revert pages. induction items as [|[k f] rest IH]; intros pages Hall; [done|].
  assert (Hstep : flush_item (pages, d) (k, f)
                  = (<[f := released (pages !!! f)]> pages, d)).
  { unfold flush_item. simpl. by rewrite (Hall f). }
  simpl. rewrite Hstep. apply IH. intros j.
  destruct (insert_total_cases pages f j (released (pages !!! f))) as [-> | ->];
    [done|apply Hall].
Qed.

(** While no frame is dirty a request stores nothing: the disk's pages stay
    and the calls it adds are reads and deallocations. *)
Lemma clean_serve_disk (junk : Z) (s : BufferPoolManagerInstance * DiskManager)
    (r : request) :
  all_clean s.1 →
  disk_pages (serve junk s r).2 = disk_pages s.2
  ∧ ∃ calls, disk_calls (serve junk s r).2 = disk_calls s.2 ++ calls
             ∧ Forall (λ c, is_write c = false) calls.
Proof.
  destruct s as [b d]. simpl. intros Hclean.
  assert (Hnone : disk_calls d = disk_calls d ++ []
                  ∧ Forall (λ c, is_write c = false) []).
  { split; [by rewrite app_nil_r|constructor]. }
  destruct r; simpl.
  - unfold FetchPgImp. destruct (page_table_ b !! page_id) as [f|]; simpl; [by eauto|].
    destruct (pick_frame b) as [[f b1]|] eqn:Hpick; simpl; [|by eauto].
    pose proof (pick_frame_Some b b1 f Hpick) as (_ & _ & Hpages & _).
    assert (Hf : is_dirty_ (frame b1 f) = false).
    { unfold frame. rewrite Hpages. apply Hclean. }
    rewrite Hf. split; [done|]. eexists. split; [reflexivity|]. by repeat constructor.
  - unfold NewPgImp. destruct (decide (pinned_num b = pool_size_ b)); simpl; [by eauto|].
    destruct (pick_frame b) as [[f b1]|] eqn:Hpick; simpl; [|by eauto].
    pose proof (pick_frame_Some b b1 f Hpick) as (_ & _ & Hpages & _).
    change (frame (set_page_table (erase_frame f (page_table_ b1)) b1) f)
      with (frame b1 f).
    assert (Hf : is_dirty_ (frame b1 f) = false).
    { unfold frame. rewrite Hpages. apply Hclean. }
    rewrite Hf. split; [done|]. eexists. split; [reflexivity|]. by repeat constructor.
  - unfold UnpinPgImp. destruct (page_table_ b !! page_id) as [f|]; simpl; [|by eauto].
    destruct (decide (pin_count_ (frame b f) > 0)%Z); simpl; by eauto.
  - unfold FlushPgImp. destruct (page_table_ b !! page_id) as [f|]; simpl; [|by eauto].
    destruct (decide (page_id = INVALID_PAGE_ID)); simpl; [by eauto|].
    rewrite (Hclean f). by eauto.
  - rewrite flush_items_clean by apply Hclean. by eauto.
  - unfold DeletePgImp. destruct (page_table_ b !! page_id) as [f|]; simpl.
    + destruct (decide (pin_count_ (frame b f) = 0%Z)); simpl.
      * rewrite (Hclean f). simpl. split; [done|].
        eexists. split; [reflexivity|]. by repeat constructor.
      * split; [done|]. eexists. split; [reflexivity|]. by repeat constructor.
    + split; [done|]. eexists. split; [reflexivity|]. by repeat constructor.
Qed.

Lemma all_clean_serve (junk : Z) (s : BufferPoolManagerInstance * DiskManager)
    (r : request) :
  marks_dirty r = false → all_clean s.1 → all_clean (serve junk s r).1.
Proof.
  intros Hr Hclean. unfold all_clean.
  apply (frames_pointwise_serve (λ p, is_dirty_ p = false)); simpl; try done.
  intros pid dirty p -> Hp _. simpl in Hr. by destruct dirty.
Qed.

(** X9.  A pool never stores a page nobody marked dirty: from the constructor,
    through any requests none of which is an [UnpinPage] with [is_dirty] set,
    the pages on disk stay as they were and every disk call the pool adds is a
    read or a deallocation, however many evictions, flushes and deletes
    happen. *)
Theorem no_write_without_dirty_unpin
    (junk : Z) (pool_size : nat) (num_instances instance_index : Z)
    (d : DiskManager) (rs : list request) :
  Forall (λ r, marks_dirty r = false) rs →
  let s := serve_all junk
             (new_BufferPoolManagerInstance pool_size num_instances instance_index, d)
             rs in
  disk_pages s.2 = disk_pages d
  ∧ ∃ calls, disk_calls s.2 = disk_calls d ++ calls
             ∧ Forall (λ c, is_write c = false) calls.
Proof.
  intros Hrs.
  assert (Hgen : ∀ s0, all_clean s0.1 →
            disk_pages (serve_all junk s0 rs).2 = disk_pages s0.2
            ∧ ∃ calls, disk_calls (serve_all junk s0 rs).2 = disk_calls s0.2 ++ calls
                       ∧ Forall (λ c, is_write c = false) calls).
  { induction Hrs as [|r rs Hr Hrs IH]; intros s0 Hclean.
    - split; [done|]. exists []. split; [by rewrite app_nil_r|constructor].
    - destruct (clean_serve_disk junk s0 r Hclean) as (Hp1 & calls1 & Hc1 & Hw1).
      destruct (IH (serve junk s0 r) (all_clean_serve junk s0 r Hr Hclean))
        as (Hp2 & calls2 & Hc2 & Hw2).
      simpl. split; [by rewrite Hp2|].
      exists (calls1 ++ calls2). split.
      + by rewrite Hc2, Hc1, app_assoc.
      + by apply Forall_app. }
  simpl. apply (Hgen (_, d)). intros i. simpl. by rewrite new_frames.
Qed.

Lemma no_write_without_dirty_unpin_witness :
  let s := serve_all 0 (new_BufferPoolManagerInstance 1 1 0, disk_with_page0)
             [NewPage; UnpinPage 0 false; FetchPage 4; UnpinPage 4 false;
              FlushPage 4; NewPage; DeletePage 1; FlushAllPages] in
  disk_pages s.2 = disk_pages disk_with_page0.
Proof.
  apply (no_write_without_dirty_unpin 0 1 1 0 disk_with_page0).
  repeat constructor.
Defined.

(** ** AllocatePage *)

Lemma NewPgImp_id (junk pid : Z) (b b' : BufferPoolManagerInstance)
    (d d' : DiskManager) (f : nat) :
  NewPgImp junk b d = (Some (pid, f), b', d') →
  pid = next_page_id_ b
  ∧ next_page_id_ b' = (pid + num_instances_ b)%Z
  ∧ num_instances_ b' = num_instances_ b
  ∧ instance_index_ b' = instance_index_ b.
Proof.
  unfold NewPgImp. destruct (decide (pinned_num b = pool_size_ b)); [discriminate|].
  destruct (pick_frame b) as [[victim_id b1]|] eqn:Hpick; [|discriminate].
  apply pick_frame_alloc in Hpick. destruct Hpick as (Hnum & Hidx & Hnext).
  simpl. intros [= <- <- <- <-]. simpl. by rewrite Hnum, Hidx, Hnext.
Qed.

Lemma next_page_id_mono (junk : Z) (rs : list request)
    (s : BufferPoolManagerInstance * DiskManager) :
  (0 < num_instances_ s.1)%Z →
  (next_page_id_ s.1 ≤ next_page_id_ (serve_all junk s rs).1)%Z
  ∧ num_instances_ (serve_all junk s rs).1 = num_instances_ s.1
  ∧ instance_index_ (serve_all junk s rs).1 = instance_index_ s.1.
Proof.
  revert s. induction rs as [|r rs IH]; intros s Hn; [by split_and!|].
  destruct (alloc_fields_serve junk s r) as (Hnum & Hidx & Hnext).
  destruct (IH (serve junk s r)) as (Hle & Hnum' & Hidx'); [by rewrite Hnum|].
  simpl. rewrite Hnum', Hidx', Hnum, Hidx. split_and!; try done.
  destruct Hnext as [Hnext|Hnext]; rewrite Hnext in Hle; lia.
Qed.

(** X10.  A page id is handed out once: when [NewPgImp] returns [pid1] and,
    after any further requests, returns [pid2], then [pid1 < pid2].  (The
    number of instances is positive, as the constructor asserts, and the ids
    are still within the range of a 32-bit [int].) *)
Theorem NewPgImp_ids_strictly_increase
    (junk pid1 pid2 : Z) (b b1 b2 : BufferPoolManagerInstance)
    (d d1 d2 : DiskManager) (f1 f2 : nat) (rs : list request) :
  (0 < num_instances_ b)%Z →
  NewPgImp junk b d = (Some (pid1, f1), b1, d1) →
  NewPgImp junk (serve_all junk (b1, d1) rs).1 (serve_all junk (b1, d1) rs).2
    = (Some (pid2, f2), b2, d2) →
  (pid2 ≤ 2147483647)%Z →
  (pid1 < pid2)%Z.
Proof.
  intros Hn H1 H2 _.
  apply NewPgImp_id in H1. destruct H1 as (-> & Hnext1 & Hnum1 & _).
  apply NewPgImp_id in H2. destruct H2 as (-> & _).
  destruct (next_page_id_mono junk rs (b1, d1)) as (Hle & _); simpl in *; lia.
Qed.

Lemma NewPgImp_ids_strictly_increase_witness :
  let o1 := NewPgImp 0 (fresh 2).1 (fresh 2).2 in
  let s2 := serve_all 0 (o1.1.2, o1.2) [UnpinPage 0 false; DeletePage 0] in
  let o3 := NewPgImp 0 s2.1 s2.2 in
  ∃ pid1 pid2 f1 f2,
    o1.1.1 = Some (pid1, f1) ∧ o3.1.1 = Some (pid2, f2) ∧ (pid1 < pid2)%Z.
Proof.
  intros o1 s2 o3. exists 0%Z, 1%Z, 0, 1.
  split; [vm_compute; reflexivity|]. split; [vm_compute; reflexivity|].
  apply (NewPgImp_ids_strictly_increase 0 0 1 (fresh 2).1 o1.1.2 o3.1.2
           (fresh 2).2 o1.2 o3.2 0 1 [UnpinPage 0 false; DeletePage 0]).
  - vm_compute. reflexivity.
  - vm_compute. reflexivity.
  - vm_compute. reflexivity.
  - lia.
Defined.

(** X11.  Every page id [NewPgImp] returns belongs to the instance: on a state
    reached from a constructor call that meets the constructor's assertions
    ([num_instances > 0], [instance_index < num_instances]), the id, while
    within the range of a 32-bit [int], is at least [instance_index], is
    congruent to it modulo [num_instances], and passes [ValidatePageId]. *)
Theorem NewPgImp_ids_belong_to_instance
    (junk pid : Z) (pool_size : nat) (num_instances instance_index : Z)
    (d d' : DiskManager) (rs : list request) (b' : BufferPoolManagerInstance)
    (f : nat) :
  (0 < num_instances)%Z →
  (0 ≤ instance_index < num_instances)%Z →
  let s := serve_all junk
             (new_BufferPoolManagerInstance pool_size num_instances instance_index, d)
             rs in
  NewPgImp junk s.1 s.2 = (Some (pid, f), b', d') →
  (pid ≤ 2147483647)%Z →
  (instance_index ≤ pid)%Z
  ∧ (pid mod num_instances)%Z = instance_index
  ∧ ValidatePageId pid s.1 = true.
Proof.
  intros Hn Hi s Hnew _.
  apply NewPgImp_id in Hnew. destruct Hnew as (-> & _).
  pose proof (ValidatePageId_reachable junk pool_size num_instances instance_index
                d rs Hn Hi) as Hv.
  simpl in Hv. fold s in Hv.
  destruct (next_page_id_mono junk rs
              (new_BufferPoolManagerInstance pool_size num_instances instance_index, d))
    as (Hle & Hnum & Hidx); [done|].
  fold s in Hle, Hnum, Hidx. simpl in Hle, Hnum, Hidx.
  split_and!; [done| |done].
  unfold ValidatePageId in Hv. apply bool_decide_eq_true in Hv.
  by rewrite Hnum, Hidx in Hv.
Qed.

Lemma NewPgImp_ids_belong_to_instance_witness :
  let s := serve_all 0 (new_BufferPoolManagerInstance 2 3 1, blank_disk)
             [NewPage; NewPage; UnpinPage 1 false] in
  ∃ pid f, (NewPgImp 0 s.1 s.2).1.1 = Some (pid, f) ∧ (pid mod 3)%Z = 1%Z.
Proof.
  intros s. exists 7%Z, 0. split; [vm_compute; reflexivity|].
  apply (NewPgImp_ids_belong_to_instance 0 7 2 3 1 blank_disk
           (NewPgImp 0 s.1 s.2).2 [NewPage; NewPage; UnpinPage 1 false]
           (NewPgImp 0 s.1 s.2).1.2 0).
  - lia.
  - lia.
  - vm_compute. reflexivity.
  - lia.
Defined.

(** ** Calls that fail *)

(** X12.  A call that fails has no effect: when [NewPgImp] or [FetchPgImp]
    returns no frame, or [UnpinPgImp] or [FlushPgImp] returns [false], the
    instance and the disk are exactly as before (no page id is used up, no
    frame taken, no disk call made); when [DeletePgImp] returns [false] the
    instance is as before and the only disk call is the deallocation. *)
Theorem failed_call_changes_nothing
    (junk page_id : Z) (is_dirty : bool) (b : BufferPoolManagerInstance)
    (d : DiskManager) :
  ((NewPgImp junk b d).1.1 = None → NewPgImp junk b d = (None, b, d))
  ∧ ((FetchPgImp page_id b d).1.1 = None → FetchPgImp page_id b d = (None, b, d))
  ∧ ((UnpinPgImp page_id is_dirty b d).1.1 = false →
     UnpinPgImp page_id is_dirty b d = (false, b, d))
  ∧ ((FlushPgImp page_id b d).1.1 = false → FlushPgImp page_id b d = (false, b, d))
  ∧ ((DeletePgImp page_id b d).1.1 = false →
     DeletePgImp page_id b d = (false, b, DeallocatePage page_id d)).
Proof.
  split_and!.
  - unfold NewPgImp. destruct (decide (pinned_num b = pool_size_ b)); [done|].
    destruct (pick_frame b) as [[f b1]|]; [discriminate|done].
  - unfold FetchPgImp. destruct (page_table_ b !! page_id); [discriminate|].
    destruct (pick_frame b) as [[f b1]|]; [discriminate|done].
  - unfold UnpinPgImp. destruct (page_table_ b !! page_id) as [f|]; [|done].
    destruct (decide (pin_count_ (frame b f) > 0)%Z); [discriminate|done].
  - unfold FlushPgImp. destruct (page_table_ b !! page_id) as [f|]; [|done].
    destruct (decide (page_id = INVALID_PAGE_ID)); [done|discriminate].
  - unfold DeletePgImp. destruct (page_table_ b !! page_id) as [f|]; [|discriminate].
    destruct (decide (pin_count_ (frame b f) = 0%Z)); [discriminate|done].
Qed.

Lemma failed_call_changes_nothing_witness :
  let s := serve_all 0 (fresh 1) [NewPage] in
  NewPgImp 0 s.1 s.2 = (None, s.1, s.2)
  ∧ FetchPgImp 3 s.1 s.2 = (None, s.1, s.2)
  ∧ UnpinPgImp 3 true s.1 s.2 = (false, s.1, s.2)
  ∧ FlushPgImp 3 s.1 s.2 = (false, s.1, s.2)
  ∧ DeletePgImp 0 s.1 s.2 = (false, s.1, DeallocatePage 0 s.2).
Proof.
  intros s.
  destruct (failed_call_changes_nothing 0 3 true s.1 s.2)
    as (Hnew & Hfetch & Hunpin & Hflush & _).
  destruct (failed_call_changes_nothing 0 0 true s.1 s.2)
    as (_ & _ & _ & _ & Hdelete).
  split_and!.
  - apply Hnew. vm_compute. reflexivity.
  - apply Hfetch. vm_compute. reflexivity.
  - apply Hunpin. vm_compute. reflexivity.
  - apply Hflush. vm_compute. reflexivity.
  - apply Hdelete. vm_compute. reflexivity.
Defined.

(** X13.  When the three boolean calls fail.  [FlushPgImp] returns [false]
    exactly when the page id is [INVALID_PAGE_ID] or the page is not resident;
    [UnpinPgImp] exactly when the page is not resident or the pin count of its
    frame is not positive; [DeletePgImp] exactly when the page is resident with
    a pin count other than 0 (deleting a page that is not resident
    succeeds). *)
Theorem boolean_calls_fail_exactly_when
    (page_id : Z) (is_dirty : bool) (b : BufferPoolManagerInstance) (d : DiskManager) :
  ((FlushPgImp page_id b d).1.1 = false ↔
     page_id = INVALID_PAGE_ID ∨ page_table_ b !! page_id = None)
  ∧ ((UnpinPgImp page_id is_dirty b d).1.1 = false ↔
       page_table_ b !! page_id = None
       ∨ ∃ f, page_table_ b !! page_id = Some f ∧ (pin_count_ (frame b f) ≤ 0)%Z)
  ∧ ((DeletePgImp page_id b d).1.1 = false ↔
       ∃ f, page_table_ b !! page_id = Some f ∧ pin_count_ (frame b f) ≠ 0%Z).
Proof.
  split_and!.
  - unfold FlushPgImp. destruct (page_table_ b !! page_id) as [f|]; simpl.
    + destruct (decide (page_id = INVALID_PAGE_ID)) as [Hinv|Hval]; simpl.
      * split; [by left|done].
      * split; [discriminate|]. intros [?|?]; done.
    + split; [by right|done].
  - unfold UnpinPgImp. destruct (page_table_ b !! page_id) as [f|]; simpl.
    + destruct (decide (pin_count_ (frame b f) > 0)%Z) as [Hpos|Hpos]; simpl.
      * split; [discriminate|]. intros [?|(g & [= <-] & Hle)]; [done|lia].
      * split; [|done]. intros _. right. exists f. split; [done|lia].
    + split; [by left|done].
  - unfold DeletePgImp. destruct (page_table_ b !! page_id) as [f|]; simpl.
    + destruct (decide (pin_count_ (frame b f) = 0%Z)) as [Hz|Hnz]; simpl.
      * split; [discriminate|]. by intros (g & [= <-] & Hne).
      * split; [|done]. intros _. by exists f.
    + split; [discriminate|]. by intros (g & ? & _).
Qed.

(** ** FetchPgImp when the page is not resident *)

(** X14.  A fetch that misses and gets frame [f] (the front of the free list,
    else the replacer's victim): the frame then holds the page with pin count
    1, clean, its buffer the page the disk stores for that id, if it stores
    one; the page table maps the page to [f] and nothing else to [f];
    entries for other frames and the other frames themselves are as before;
    the replacer does not hold [f]; the read of the page is the last disk
    call. *)
Theorem FetchPgImp_miss_installs_page
    (page_id : Z) (b b1 : BufferPoolManagerInstance) (d : DiskManager) (f : nat) :
  pool_wf b →
  page_table_ b !! page_id = None →
  pick_frame b = Some (f, b1) →
  let o := FetchPgImp page_id b d in
  o.1.1 = Some f
  ∧ page_id_ (frame o.1.2 f) = page_id
  ∧ pin_count_ (frame o.1.2 f) = 1%Z
  ∧ is_dirty_ (frame o.1.2 f) = false
  ∧ (∀ buf, disk_pages d !! page_id = Some buf → data_ (frame o.1.2 f) = buf)
  ∧ page_table_ o.1.2 !! page_id = Some f
  ∧ (∀ k, k ≠ page_id → page_table_ o.1.2 !! k ≠ Some f)
  ∧ (∀ k g, g ≠ f → page_table_ o.1.2 !! k = Some g ↔ page_table_ b !! k = Some g)
  ∧ (∀ g, g ≠ f → frame o.1.2 g = frame b g)
  ∧ (f ∉ replacer_ (replacer o.1.2))
  ∧ last (disk_calls o.2) = Some (CallReadPage page_id).
Proof.
  intros Hwf Hmiss Hpick o.
  pose proof (pick_frame_in_range b b1 f Hwf Hpick) as Hf.
  pose proof (pick_frame_LRU_wf b b1 f Hpick (wf_lru b Hwf)) as Hlru.
  pose proof (pick_frame_Some b b1 f Hpick) as (_ & _ & Hpages & Htable & _).
  assert (Hlt : f < length (pages_ b1)) by (by rewrite Hpages, (wf_pages b Hwf)).
  assert (Hframe : frame b1 f = frame b f) by (unfold frame; by rewrite Hpages).
  assert (Hgone : ∀ k, erase_frame f (page_table_ b) !! k ≠ Some f).
  { apply erase_frame_gone. intros k1 k2. apply (pool_wf_table_inj b f k1 k2 Hwf). }
  assert (Hfresh : erase_frame f (page_table_ b) !! page_id = None).
  { destruct (erase_frame f (page_table_ b) !! page_id) as [g|] eqn:E; [|done].
    apply erase_frame_lookup in E. congruence. }
  assert (Hread : disk_pages (if is_dirty_ (frame b f)
                              then WritePage (page_id_ (frame b f)) (data_ (frame b f)) d
                              else d) !! page_id = disk_pages d !! page_id).
  { destruct (is_dirty_ (frame b f)) eqn:Hd; [|done].
    simpl. rewrite lookup_insert_ne; [done|].
    intros Heq. apply (wf_dirty b Hwf) in Hd. congruence. }
  assert (Ho : o = FetchPgImp page_id b d) by reflexivity.
  clearbody o. revert Ho. unfold FetchPgImp. rewrite Hmiss, Hpick. simpl.
  rewrite Hframe, Htable, Hread. intros ->. simpl.
  set (p := set_data (default zeroed (disk_pages d !! page_id))
              (installed page_id (frame b f))).
  set (b' := set_replacer (Pin f (replacer b1))
               (set_pages (<[f := p]> (pages_ b1))
                  (set_page_table
                     (emplace page_id f (erase_frame f (page_table_ b))) b1))).
  assert (HF : frame b' f = p).
  { unfold frame. simpl. by apply list_lookup_total_insert_eq. }
  rewrite HF. simpl.
  split_and!; try done.
  - intros buf Hbuf. by rewrite Hbuf.
  - by apply emplace_fresh.
  - intros k Hk Hin. apply emplace_lookup in Hin.
    destruct Hin as [(Heq & _)|Hin]; [done|]. by apply Hgone in Hin.
  - intros k g Hg. split.
    + intros Hin. apply emplace_lookup in Hin.
      destruct Hin as [(_ & Heq & _)|Hin]; [done|]. by apply erase_frame_lookup in Hin.
    + intros Hin. apply emplace_keeps. by apply erase_frame_keeps.
  - intros g Hg. unfold frame; simpl. rewrite Hpages.
    by rewrite list_lookup_total_insert_ne.
  - by apply Pin_removes.
  - by rewrite last_snoc.
Qed.

Lemma FetchPgImp_miss_installs_page_witness :
  let s := serve_all 0 (new_BufferPoolManagerInstance 1 1 0, disk_with_page0)
             [NewPage; UnpinPage 0 true; FetchPage 9; UnpinPage 9 false] in
  (FetchPgImp 0 s.1 s.2).1.1 = Some 0
  ∧ data_ (frame (FetchPgImp 0 s.1 s.2).1.2 0) = repeat x01 PAGE_SIZE.
Proof.
  intros s.
  destruct (FetchPgImp_miss_installs_page 0 s.1 (set_replacer (mkLRU 1 [] ∅) s.1) s.2 0)
    as (Hres & _ & _ & _ & Hdata & _).
  - apply pool_wf_reachable.
  - vm_compute. reflexivity.
  - vm_compute. reflexivity.
  - split; [exact Hres|]. apply Hdata. vm_compute. reflexivity.
Defined.

(** ** Round trip through the disk *)

Lemma fetch_after_release
    (page_id : Z) (buf : list byte) (b : BufferPoolManagerInstance) (d : DiskManager) :
  pool_wf b →
  page_table_ b !! page_id = None →
  free_list_ b ≠ [] →
  disk_pages d !! page_id = Some buf →
  ∃ f, (FetchPgImp page_id b d).1.1 = Some f
       ∧ data_ (frame (FetchPgImp page_id b d).1.2 f) = buf.
Proof.
  intros Hwf Hmiss Hfree Hdisk.
  destruct (pick_frame b) as [[f b1]|] eqn:Hpick.
  - exists f.
    assert (Hsome : (FetchPgImp page_id b d).1.1 = Some f).
    { unfold FetchPgImp. by rewrite Hmiss, Hpick. }
    split; [done|]. by apply FetchPgImp_miss_reads_disk.
  - apply pick_frame_None in Hpick. by destruct Hpick.
Qed.

(** X15.  What was written back is read back.  For a resident dirty page with
    buffer [buf]: after a successful [FlushPgImp] (the page id is not
    [INVALID_PAGE_ID]), and likewise after [DeletePgImp] when the pin count is
    0, the next [FetchPgImp] of the page succeeds and returns a frame whose
    buffer is [buf]. *)
Theorem written_back_page_is_read_back
    (page_id : Z) (b : BufferPoolManagerInstance) (d : DiskManager) (f : nat) :
  pool_wf b →
  page_table_ b !! page_id = Some f →
  is_dirty_ (frame b f) = true →
  (page_id ≠ INVALID_PAGE_ID →
     let o1 := FlushPgImp page_id b d in
     let o2 := FetchPgImp page_id o1.1.2 o1.2 in
     o1.1.1 = true
     ∧ ∃ f2, o2.1.1 = Some f2 ∧ data_ (frame o2.1.2 f2) = data_ (frame b f))
  ∧ (pin_count_ (frame b f) = 0%Z →
     let o1 := DeletePgImp page_id b d in
     let o2 := FetchPgImp page_id o1.1.2 o1.2 in
     o1.1.1 = true
     ∧ ∃ f2, o2.1.1 = Some f2 ∧ data_ (frame o2.1.2 f2) = data_ (frame b f)).
Proof.
  intros Hwf Hres Hdirty. split.
  - intros Hvalid o1.
    pose proof (pool_wf_FlushPgImp page_id b d Hwf) as Hwf1. fold o1 in Hwf1.
    assert (Ho1 : o1 = FlushPgImp page_id b d) by reflexivity.
    clearbody o1. revert Ho1. unfold FlushPgImp.
    rewrite Hres, decide_False, Hdirty by done. intros ->. simpl in *.
    split; [done|]. apply fetch_after_release; simpl; try done.
    + apply lookup_delete_eq.
    + by destruct (free_list_ b).
    + apply lookup_insert_eq.
  - intros Hpin o1.
    pose proof (pool_wf_DeletePgImp page_id b d Hwf) as Hwf1. fold o1 in Hwf1.
    assert (Ho1 : o1 = DeletePgImp page_id b d) by reflexivity.
    clearbody o1. revert Ho1. unfold DeletePgImp.
    rewrite Hres, decide_True, Hdirty by done. intros ->. simpl in *.
    split; [done|]. apply fetch_after_release; simpl; try done.
    + apply lookup_delete_eq.
    + by destruct (free_list_ b).
    + apply lookup_insert_eq.
Qed.

Lemma written_back_page_is_read_back_witness :
  let s := serve_all 0 (new_BufferPoolManagerInstance 2 1 0, disk_with_page0)
             [NewPage; UnpinPage 0 true] in
  (let o1 := FlushPgImp 0 s.1 s.2 in
   ∃ f2, (FetchPgImp 0 o1.1.2 o1.2).1.1 = Some f2
         ∧ data_ (frame (FetchPgImp 0 o1.1.2 o1.2).1.2 f2) = repeat x01 PAGE_SIZE)
  ∧ (let o1 := DeletePgImp 0 s.1 s.2 in
     ∃ f2, (FetchPgImp 0 o1.1.2 o1.2).1.1 = Some f2
           ∧ data_ (frame (FetchPgImp 0 o1.1.2 o1.2).1.2 f2) = repeat x01 PAGE_SIZE).
Proof.
  intros s.
  assert (Hbuf : data_ (frame s.1 0) = repeat x01 PAGE_SIZE) by (vm_compute; reflexivity).
  destruct (written_back_page_is_read_back 0 s.1 s.2 0) as [Hflush Hdelete].
  - apply pool_wf_reachable.
  - vm_compute. reflexivity.
  - vm_compute. reflexivity.
  - rewrite Hbuf in Hflush, Hdelete. split.
    + apply Hflush. vm_compute. discriminate.
    + apply Hdelete. vm_compute. reflexivity.
Defined.

(** ** Pairing of fetch and unpin *)

(** X16.  A fetch of a resident page followed by its unpin with [is_dirty]
    false undoes itself on the frames: both calls succeed and the frame array
    (pin counts, dirty flags, buffers), the page table, the free list and the
    disk are as before the fetch. *)
Theorem fetch_then_unpin_restores_frames
    (page_id : Z) (b : BufferPoolManagerInstance) (d : DiskManager) (f : nat) :
  page_table_ b !! page_id = Some f →
  f < length (pages_ b) →
  (0 ≤ pin_count_ (frame b f))%Z →
  let o1 := FetchPgImp page_id b d in
  let o2 := UnpinPgImp page_id false o1.1.2 o1.2 in
  o1.1.1 = Some f
  ∧ o2.1.1 = true
  ∧ pages_ o2.1.2 = pages_ b
  ∧ page_table_ o2.1.2 = page_table_ b
  ∧ free_list_ o2.1.2 = free_list_ b
  ∧ o2.2 = d.
Proof.
  intros Hres Hlt Hpin o1 o2.
  assert (Ho1 : o1 = FetchPgImp page_id b d) by reflexivity.
  clearbody o1. revert Ho1. unfold FetchPgImp. rewrite Hres. intros ->.
  set (page1 := set_pin_count (pin_count_ (frame b f) + 1)%Z (frame b f)) in *.
  set (b1 := set_pages (<[f := page1]> (pages_ b)) b) in *.
  assert (Hf1 : frame (set_replacer (Pin f (replacer b1)) b1) f = page1)
    by apply (frame_insert_eq b f page1 Hlt).
  assert (Ho2 : o2 = UnpinPgImp page_id false
                       (set_replacer (Pin f (replacer b1)) b1) d) by reflexivity.
  clearbody o2. revert Ho2. unfold UnpinPgImp.
  change (page_table_ (set_replacer (Pin f (replacer b1)) b1)) with (page_table_ b).
  rewrite Hres, Hf1.
  rewrite decide_True by (simpl; lia). intros ->. simpl.
  split_and!; try done.
  etrans; [apply list_insert_insert_eq|]. apply list_insert_id.
  replace (pin_count_ (frame b f) + 1 - 1)%Z with (pin_count_ (frame b f)) by lia.
  unfold page1, frame. rewrite list_lookup_lookup_total_lt by done.
  f_equal. by destruct (pages_ b !!! f).
Qed.

Lemma fetch_then_unpin_restores_frames_witness :
  let s := serve_all 0 (fresh 2) [NewPage; UnpinPage 0 true] in
  pages_ (UnpinPgImp 0 false (FetchPgImp 0 s.1 s.2).1.2 (FetchPgImp 0 s.1 s.2).2).1.2
  = pages_ s.1.
Proof.
  intros s.
  destruct (fetch_then_unpin_restores_frames 0 s.1 s.2 0)
    as (_ & _ & Hpages & _).
  - vm_compute. reflexivity.
  - vm_compute. lia.
  - vm_compute. discriminate.
  - exact Hpages.
Defined.

(** ** NewPgImp and the page table *)

(** X17.  [NewPgImp] that gets frame [f] returns the next page id with [f].
    When that id is not resident (or resident in [f] itself) the page table
    then maps it to [f].  When the id is already resident in another frame
    [g], [emplace] leaves that entry alone: the page table still maps the id
    to [g] and no entry names the returned frame. *)
Theorem NewPgImp_maps_page_unless_resident
    (junk : Z) (b b1 : BufferPoolManagerInstance) (d : DiskManager) (f : nat) :
  pool_wf b →
  pinned_num b ≠ pool_size_ b →
  pick_frame b = Some (f, b1) →
  let o := NewPgImp junk b d in
  o.1.1 = Some (next_page_id_ b, f)
  ∧ (page_table_ b !! next_page_id_ b = None ∨ page_table_ b !! next_page_id_ b = Some f →
     page_table_ o.1.2 !! next_page_id_ b = Some f)
  ∧ (∀ g, page_table_ b !! next_page_id_ b = Some g → g ≠ f →
          page_table_ o.1.2 !! next_page_id_ b = Some g
          ∧ ∀ k, page_table_ o.1.2 !! k ≠ Some f).
Proof.
  intros Hwf Hsome Hpick o.
  pose proof (pick_frame_Some b b1 f Hpick) as (_ & _ & _ & Htable & Hnext & _).
  assert (Hgone : ∀ k, erase_frame f (page_table_ b) !! k ≠ Some f).
  { apply erase_frame_gone. intros k1 k2. apply (pool_wf_table_inj b f k1 k2 Hwf). }
  assert (Ho : o = NewPgImp junk b d) by reflexivity.
  clearbody o. revert Ho. unfold NewPgImp.
  rewrite decide_False by done. rewrite Hpick. simpl. rewrite Htable, Hnext.
  intros ->. simpl. split_and!; [done| |].
  - intros Hcase. apply emplace_fresh.
    destruct (erase_frame f (page_table_ b) !! next_page_id_ b) as [g|] eqn:E; [|done].
    pose proof (erase_frame_lookup _ _ _ _ E) as E'.
    destruct Hcase as [Hnone|Hsame]; [congruence|].
    rewrite Hsame in E'. injection E' as <-. by apply Hgone in E.
  - intros g Hg Hne.
    assert (Hkept : erase_frame f (page_table_ b) !! next_page_id_ b = Some g)
      by (by apply erase_frame_keeps).
    split.
    + by apply emplace_keeps.
    + intros k Hk. apply emplace_lookup in Hk.
      destruct Hk as [(_ & _ & Hnone)|Hk]; [congruence|]. by apply Hgone in Hk.
Qed.

Lemma NewPgImp_maps_page_unless_resident_witness :
  let s := serve_all 0 (fresh 2) [FetchPage 0] in
  (NewPgImp 0 s.1 s.2).1.1 = Some (0%Z, 1)
  ∧ page_table_ (NewPgImp 0 s.1 s.2).1.2 !! 0%Z = Some 0.
Proof.
  intros s.
  destruct (NewPgImp_maps_page_unless_resident 0 s.1 (set_free_list [] s.1) s.2 1)
    as (Hres & _ & Hclash).
  - apply pool_wf_reachable.
  - vm_compute. lia.
  - vm_compute. reflexivity.
  - split; [exact Hres|]. apply (Hclash 0).
    + vm_compute. reflexivity.
    + lia.
Defined.

(** ** parallel_buffer_pool_manager.cpp *)

(** Where a page-table key can come from. *)
Lemma table_keys_serve (junk : Z) (s : BufferPoolManagerInstance * DiskManager)
    (r : request) (pid : Z) (f : nat) :
  page_table_ (serve junk s r).1 !! pid = Some f →
  page_table_ s.1 !! pid = Some f
  ∨ r = FetchPage pid
  ∨ (r = NewPage ∧ pid = next_page_id_ s.1).
Proof.
  destruct s as [b d]. destruct r; simpl.
  - unfold FetchPgImp. destruct (page_table_ b !! page_id); simpl; [by left|].
    destruct (pick_frame b) as [[g b1]|] eqn:Hpick; simpl; [|by left].
    pose proof (pick_frame_Some b b1 g Hpick) as (_ & _ & _ & Htable & _).
    rewrite Htable. intros Hk. apply emplace_lookup in Hk.
    destruct Hk as [(-> & _)|Hk]; [by right; left|].
    left. by apply erase_frame_lookup in Hk.
  - unfold NewPgImp. destruct (decide (pinned_num b = pool_size_ b)); simpl; [by left|].
    destruct (pick_frame b) as [[g b1]|] eqn:Hpick; simpl; [|by left].
    pose proof (pick_frame_Some b b1 g Hpick) as (_ & _ & _ & Htable & Hnext & _).
    rewrite Htable, Hnext. intros Hk. apply emplace_lookup in Hk.
    destruct Hk as [(-> & _)|Hk]; [by right; right|].
    left. by apply erase_frame_lookup in Hk.
  - unfold UnpinPgImp. destruct (page_table_ b !! page_id); simpl; [|by left].
    destruct (decide (pin_count_ (frame b n) > 0)%Z); simpl; by left.
  - unfold FlushPgImp. destruct (page_table_ b !! page_id); simpl; [|by left].
    destruct (decide (page_id = INVALID_PAGE_ID)); simpl; [by left|].
    intros Hk. apply lookup_delete_Some in Hk. left. tauto.
  - intros Hk. by rewrite lookup_empty in Hk.
  - unfold DeletePgImp. destruct (page_table_ b !! page_id); simpl; [|by left].
    destruct (decide (pin_count_ (frame b n) = 0%Z)); simpl; [|by left].
    intros Hk. apply lookup_delete_Some in Hk. left. tauto.
Qed.

Lemma shard_ok_serve (junk : Z) (pool_size N k : nat)
    (s : BufferPoolManagerInstance * DiskManager) (r : request) :
  0 < N →
  (∀ pid, r = FetchPage pid → (0 ≤ pid)%Z ∧ (pid mod Z.of_nat N)%Z = Z.of_nat k) →
  shard_ok pool_size N k s.1 →
  shard_ok pool_size N k (serve junk s r).1.
Proof.
  intros HN Hfetch (Hwf & Hsize & Hnum & Hidx & Hpos & Hmod & Hkeys).
  destruct (alloc_fields_serve junk s r) as (Hnum' & Hidx' & Hnext').
  unfold shard_ok. split_and!.
  - by apply pool_wf_serve.
  - by rewrite pool_size_serve.
  - by rewrite Hnum'.
  - by rewrite Hidx'.
  - destruct Hnext' as [->| ->]; lia.
  - destruct Hnext' as [->| ->]; [done|].
    rewrite Hnum, <- Hmod.
    rewrite <- (Z_mod_plus_full (next_page_id_ s.1) 1 (Z.of_nat N)).
    f_equal. lia.
  - intros pid f Hk. apply table_keys_serve in Hk.
    destruct Hk as [Hk|[->|[_ ->]]]; [by apply (Hkeys pid f)|by apply Hfetch|done].
Qed.

Lemma shard_ok_new (pool_size N k : nat) :
  k < N → shard_ok pool_size N k
            (new_BufferPoolManagerInstance pool_size (Z.of_nat N) (Z.of_nat k)).
Proof.
  intros Hk. unfold shard_ok. simpl.
  split_and!; [apply pool_wf_new|done|done|done|lia|apply Z.mod_small; lia|].
  intros pid f Hpid. by rewrite lookup_empty in Hpid.
Qed.

Lemma pool_id_lt (page_id : Z) (p : Parallel.ParallelBufferPoolManager) :
  0 < Parallel.num_instances_ p →
  Parallel.pool_id page_id p < Parallel.num_instances_ p.
Proof.
  intros HN. unfold Parallel.pool_id.
  pose proof (Z.mod_pos_bound page_id (Z.of_nat (Parallel.num_instances_ p))).
  lia.
Qed.

Lemma pool_id_mod (page_id : Z) (p : Parallel.ParallelBufferPoolManager) :
  0 < Parallel.num_instances_ p →
  (page_id mod Z.of_nat (Parallel.num_instances_ p))%Z
  = Z.of_nat (Parallel.pool_id page_id p).
Proof.
  intros HN. unfold Parallel.pool_id.
  pose proof (Z.mod_pos_bound page_id (Z.of_nat (Parallel.num_instances_ p))).
  lia.
Qed.

(** Replacing the instance at one position by one that is in order there. *)
Lemma shards_wf_insert (p : Parallel.ParallelBufferPoolManager) (k : nat)
    (m : BufferPoolManagerInstance) :
  shards_wf p →
  shard_ok (Parallel.pool_size_ p) (Parallel.num_instances_ p) k m →
  shards_wf (Parallel.set_buffer_pool_manager
               (<[k := m]> (Parallel.buffer_pool_manager_ p)) p).
Proof.
  intros (HN & Hlen & Hall) Hm. unfold shards_wf. simpl.
  split_and!; [done|by rewrite length_insert|].
  intros j m' Hj. destruct (decide (j = k)) as [->|Hne].
  - apply list_lookup_insert_Some in Hj.
    destruct Hj as [(_ & <- & _)|[Hne _]]; done.
  - rewrite list_lookup_insert_ne in Hj by done. by apply Hall.
Qed.

Lemma shards_wf_lookup (p : Parallel.ParallelBufferPoolManager) (page_id : Z) :
  shards_wf p →
  ∃ m, Parallel.GetBufferPoolManager page_id p = Some m
       ∧ shard_ok (Parallel.pool_size_ p) (Parallel.num_instances_ p)
           (Parallel.pool_id page_id p) m.
Proof.
  intros (HN & Hlen & Hall). unfold Parallel.GetBufferPoolManager.
  destruct (lookup_lt_is_Some_2 (Parallel.buffer_pool_manager_ p)
              (Parallel.pool_id page_id p)) as [m Hm].
  { rewrite Hlen. by apply pool_id_lt. }
  exists m. split; [done|]. by apply Hall.
Qed.

(** A call that goes to the shard of its page id. *)
Lemma shards_wf_routed (junk : Z) (p : Parallel.ParallelBufferPoolManager)
    (d : DiskManager) (page_id : Z) (r : request) (m : BufferPoolManagerInstance) :
  shards_wf p →
  (∀ pid, r = FetchPage pid → pid = page_id ∧ (0 ≤ pid)%Z) →
  Parallel.GetBufferPoolManager page_id p = Some m →
  shards_wf (Parallel.put_pool page_id (serve junk (m, d) r).1 p).
Proof.
  intros Hwf Hfetch Hm.
  destruct (shards_wf_lookup p page_id Hwf) as (m' & Hm' & Hok).
  rewrite Hm in Hm'. injection Hm' as <-.
  apply shards_wf_insert; [done|].
  apply shard_ok_serve; [apply Hwf| |done].
  intros pid Hr. destruct (Hfetch pid Hr) as [-> Hpos].
  split; [done|]. apply pool_id_mod, Hwf.
Qed.

Lemma shards_wf_NewPg_loop (junk : Z) (todo : list nat)
    (p : Parallel.ParallelBufferPoolManager) (d : DiskManager) :
  shards_wf p → shards_wf (Parallel.NewPg_loop junk todo p d).1.2.
Proof.
  revert p d. induction todo as [|i rest IH]; intros p d Hwf; [done|].
  simpl.
  destruct (Parallel.buffer_pool_manager_ p !! (i mod Parallel.num_instances_ p))
    as [m|] eqn:Hm; [|done].
  assert (Hok : shard_ok (Parallel.pool_size_ p) (Parallel.num_instances_ p)
                  (i mod Parallel.num_instances_ p) (NewPgImp junk m d).1.2).
  { apply (shard_ok_serve junk _ _ _ (m, d) NewPage); [apply Hwf|done|].
    by apply Hwf. }
  destruct (NewPgImp junk m d) as [[[[pid f]|] m'] d'] eqn:E; simpl in *.
  - by apply shards_wf_insert.
  - apply IH. by apply shards_wf_insert.
Qed.

Lemma flush_shards_spec (l acc : list BufferPoolManagerInstance) (d : DiskManager) :
  let r := foldl Parallel.flush_shard (acc, d) l in
  length r.1 = length acc + length l
  ∧ (∀ k, k < length acc → r.1 !! k = acc !! k)
  ∧ (∀ k m, l !! k = Some m →
            ∃ d0, r.1 !! (length acc + k) = Some (FlushAllPgsImp m d0).1).
Proof.
  revert acc d. induction l as [|m0 l IH]; intros acc d; simpl.
  { split_and!; [lia|done|]. intros k m Hk. by rewrite lookup_nil in Hk. }
  destruct (IH (acc ++ [(FlushAllPgsImp m0 d).1]) (FlushAllPgsImp m0 d).2)
    as (Hlen & Hold & Hnew).
  rewrite length_app in Hlen, Hold, Hnew. simpl in Hlen, Hold, Hnew.
  unfold Parallel.flush_shard at 2. simpl. split_and!.
  - rewrite Hlen. lia.
  - intros k Hk. rewrite Hold by lia. by apply lookup_app_l.
  - intros [|k] m Hk; simpl in Hk.
    + injection Hk as <-. exists d. rewrite Hold by lia.
      rewrite Nat.add_0_r, lookup_app_r by lia.
      by rewrite Nat.sub_diag.
    + destruct (Hnew k m Hk) as [d0 Hd0]. exists d0.
      rewrite <- Hd0. f_equal. lia.
Qed.

Lemma shards_wf_FlushAllPgsImp (p : Parallel.ParallelBufferPoolManager) (d : DiskManager) :
  shards_wf p → shards_wf (Parallel.FlushAllPgsImp p d).1.
Proof.
  intros (HN & Hlen & Hall).
  destruct (flush_shards_spec (Parallel.buffer_pool_manager_ p) [] d)
    as (Hlen' & _ & Hnew).
  unfold shards_wf, Parallel.FlushAllPgsImp. simpl in *.
  split_and!; [done|by rewrite Hlen'|].
  intros k m' Hk.
  destruct (lookup_lt_is_Some_2 (Parallel.buffer_pool_manager_ p) k) as [m Hm].
  { apply lookup_lt_Some in Hk. lia. }
  destruct (Hnew k m Hm) as [d0 Hd0]. rewrite Hk in Hd0. injection Hd0 as ->.
  apply (shard_ok_serve 0 _ _ _ (m, d0) FlushAllPages); [done|done|].
  by apply Hall.
Qed.

Lemma shards_wf_parallel_serve (junk : Z)
    (s : Parallel.ParallelBufferPoolManager * DiskManager) (r : request) :
  id_nonneg r → shards_wf s.1 → shards_wf (parallel_serve junk s r).1.
Proof.
  destruct s as [p d]. simpl. intros Hr Hwf. destruct r; simpl in *.
  - unfold Parallel.FetchPgImp.
    destruct (Parallel.GetBufferPoolManager page_id p) as [m|] eqn:Hm; [|done].
    apply (shards_wf_routed junk p d page_id (FetchPage page_id) m); try done.
    by intros pid [= ->].
  - by apply shards_wf_NewPg_loop.
  - unfold Parallel.UnpinPgImp.
    destruct (Parallel.GetBufferPoolManager page_id p) as [m|] eqn:Hm; [|done].
    by apply (shards_wf_routed junk p d page_id (UnpinPage page_id is_dirty) m).
  - unfold Parallel.FlushPgImp.
    destruct (Parallel.GetBufferPoolManager page_id p) as [m|] eqn:Hm; [|done].
    by apply (shards_wf_routed junk p d page_id (FlushPage page_id) m).
  - by apply shards_wf_FlushAllPgsImp.
  - unfold Parallel.DeletePgImp.
    destruct (Parallel.GetBufferPoolManager page_id p) as [m|] eqn:Hm; [|done].
    by apply (shards_wf_routed junk p d page_id (DeletePage page_id) m).
Qed.

Lemma shards_wf_parallel_serve_all (junk : Z) (rs : list request)
    (s : Parallel.ParallelBufferPoolManager * DiskManager) :
  Forall id_nonneg rs → shards_wf s.1 → shards_wf (parallel_serve_all junk s rs).1.
Proof.
  intros Hrs. revert s. induction Hrs as [|r rs Hr Hrs IH]; intros s Hwf; [done|].
  simpl. apply IH. by apply shards_wf_parallel_serve.
Qed.

Lemma shards_wf_new (num_instances pool_size : nat) :
  shards_wf (Parallel.new_ParallelBufferPoolManager num_instances pool_size).
Proof.
  unfold shards_wf, Parallel.new_ParallelBufferPoolManager. simpl.
  set (n := if decide (0 < num_instances) then num_instances else 1).
  assert (Hn : 0 < n) by (unfold n; destruct (decide (0 < num_instances)); lia).
  split_and!; [done|by rewrite length_map, length_seq|].
  intros k m Hk. rewrite list_lookup_fmap in Hk.
  destruct (seq 0 n !! k) as [i|] eqn:Hi; [|done].
  apply lookup_seq in Hi. destruct Hi as [-> Hlt]. simpl in Hk.
  injection Hk as <-. by apply shard_ok_new.
Qed.

Lemma NewPg_loop_fields (junk : Z) (todo : list nat)
    (p : Parallel.ParallelBufferPoolManager) (d : DiskManager) :
  Parallel.num_instances_ (Parallel.NewPg_loop junk todo p d).1.2
    = Parallel.num_instances_ p
  ∧ Parallel.pool_size_ (Parallel.NewPg_loop junk todo p d).1.2 = Parallel.pool_size_ p.
Proof.
  revert p d. induction todo as [|i rest IH]; intros p d; [done|].
  simpl.
  destruct (Parallel.buffer_pool_manager_ p !! (i mod Parallel.num_instances_ p))
    as [m|]; [|done].
  destruct (NewPgImp junk m d) as [[[[pid f]|] m'] d']; [done|].
  destruct (IH (Parallel.set_buffer_pool_manager
                  (<[i mod Parallel.num_instances_ p := m']>
                     (Parallel.buffer_pool_manager_ p)) p) d') as [-> ->].
  done.
Qed.

Lemma parallel_fields_serve_all (junk : Z) (rs : list request)
    (s : Parallel.ParallelBufferPoolManager * DiskManager) :
  Parallel.num_instances_ (parallel_serve_all junk s rs).1 = Parallel.num_instances_ s.1
  ∧ Parallel.pool_size_ (parallel_serve_all junk s rs).1 = Parallel.pool_size_ s.1.
Proof.
  revert s. induction rs as [|r rs IH]; intros s; [done|].
  simpl. destruct (IH (parallel_serve junk s r)) as [-> ->].
  destruct s as [p d]. destruct r; simpl.
  - unfold Parallel.FetchPgImp. by destruct (Parallel.GetBufferPoolManager page_id p).
  - apply NewPg_loop_fields.
  - unfold Parallel.UnpinPgImp. by destruct (Parallel.GetBufferPoolManager page_id p).
  - unfold Parallel.FlushPgImp. by destruct (Parallel.GetBufferPoolManager page_id p).
  - done.
  - unfold Parallel.DeletePgImp. by destruct (Parallel.GetBufferPoolManager page_id p).
Qed.

(** X18.  Sharding is kept.  From the constructor, through any requests whose
    page ids are not negative, and while no instance has allocated past the
    range of a 32-bit [int]: the pool keeps its instances, one when
    [num_instances] is 0 and [num_instances] otherwise; [GetPoolSize] stays
    [pool_size] times that number; the instance at position [k] has instance
    index [k] and [pool_size] frames; and every page resident in it has an id
    that [GetBufferPoolManager] routes to position [k]. *)
Theorem parallel_pages_stay_in_their_shard
    (junk : Z) (num_instances pool_size : nat) (d : DiskManager) (rs : list request) :
  Forall id_nonneg rs →
  let p := (parallel_serve_all junk
              (Parallel.new_ParallelBufferPoolManager num_instances pool_size, d)
              rs).1 in
  (∀ k m, Parallel.buffer_pool_manager_ p !! k = Some m →
          (next_page_id_ m ≤ 2147483648)%Z) →
  length (Parallel.buffer_pool_manager_ p) = max 1 num_instances
  ∧ Parallel.GetPoolSize p = pool_size * max 1 num_instances
  ∧ ∀ k m, Parallel.buffer_pool_manager_ p !! k = Some m →
      instance_index_ m = Z.of_nat k
      ∧ length (pages_ m) = pool_size
      ∧ ∀ pid f, page_table_ m !! pid = Some f → Parallel.pool_id pid p = k.
Proof.
  intros Hrs p _.
  assert (Hwf : shards_wf p).
  { apply shards_wf_parallel_serve_all; [done|apply shards_wf_new]. }
  destruct (parallel_fields_serve_all junk rs
              (Parallel.new_ParallelBufferPoolManager num_instances pool_size, d))
    as [Hnum Hsize].
  fold p in Hnum, Hsize. simpl in Hnum, Hsize.
  assert (HN : Parallel.num_instances_ p = max 1 num_instances).
  { rewrite Hnum. destruct (decide (0 < num_instances)); lia. }
  destruct Hwf as (Hpos & Hlen & Hall).
  split_and!.
  - by rewrite Hlen.
  - unfold Parallel.GetPoolSize. by rewrite Hsize, HN.
  - intros k m Hk.
    destruct (Hall k m Hk) as (Hwf & Hps & _ & Hidx & _ & _ & Hkeys).
    split_and!; [done|by rewrite (wf_pages m Hwf), Hps|].
    intros pid f Hpid. destruct (Hkeys pid f Hpid) as [_ Hmod].
    unfold Parallel.pool_id. rewrite Hmod. lia.
Qed.

Lemma parallel_pages_stay_in_their_shard_witness :
  let p := (parallel_serve_all 0 (Parallel.new_ParallelBufferPoolManager 3 2, blank_disk)
              [NewPage; FetchPage 7; NewPage; UnpinPage 7 true; FetchPage 5]).1 in
  length (Parallel.buffer_pool_manager_ p) = 3 ∧ Parallel.GetPoolSize p = 6.
Proof.
  intros p.
  destruct (parallel_pages_stay_in_their_shard 0 3 2 blank_disk
              [NewPage; FetchPage 7; NewPage; UnpinPage 7 true; FetchPage 5])
    as (Hlen & Hsize & _).
  - repeat constructor; simpl; lia.
  - intros k m Hk.
    assert (Hlt : k < 3).
    { apply lookup_lt_Some in Hk. vm_compute in Hk. lia. }
    destruct k as [|[|[|k]]]; [| | |lia];
      vm_compute in Hk; injection Hk as <-; vm_compute; discriminate.
  - split; [exact Hlen|exact Hsize].
Defined.

Lemma NewPgImp_None (junk : Z) (b : BufferPoolManagerInstance) (d : DiskManager) :
  (NewPgImp junk b d).1.1 = None → NewPgImp junk b d = (None, b, d).
Proof.
  unfold NewPgImp. destruct (decide (pinned_num b = pool_size_ b)); [done|].
  destruct (pick_frame b) as [[f b1]|]; [discriminate|done].
Qed.

Lemma set_buffer_pool_manager_same (p : Parallel.ParallelBufferPoolManager) (k : nat)
    (m : BufferPoolManagerInstance) :
  Parallel.buffer_pool_manager_ p !! k = Some m →
  Parallel.set_buffer_pool_manager (<[k := m]> (Parallel.buffer_pool_manager_ p)) p = p.
Proof.
  intros Hk. destruct p as [ps n l]. unfold Parallel.set_buffer_pool_manager.
  simpl in *. by rewrite list_insert_id.
Qed.

Lemma NewPg_loop_all_fail (junk : Z) (todo : list nat)
    (p : Parallel.ParallelBufferPoolManager) (d : DiskManager) :
  (∀ i, i ∈ todo →
        ∃ m, Parallel.buffer_pool_manager_ p !! (i mod Parallel.num_instances_ p) = Some m
             ∧ (NewPgImp junk m d).1.1 = None) →
  Parallel.NewPg_loop junk todo p d = (None, p, d).
Proof.
  induction todo as [|i rest IH]; intros Hall; [done|].
  destruct (Hall i) as (m & Hm & Hfail); [by left|].
  simpl. rewrite Hm, (NewPgImp_None junk m d Hfail).
  rewrite (set_buffer_pool_manager_same p _ m Hm).
  apply IH. intros j Hj. apply Hall. by right.
Qed.

Lemma NewPg_loop_first (junk : Z) (pre rest : list nat) (i : nat)
    (p : Parallel.ParallelBufferPoolManager) (d : DiskManager)
    (m : BufferPoolManagerInstance) (pid : Z) (f : nat) :
  (∀ j, j ∈ pre →
        ∃ m', Parallel.buffer_pool_manager_ p !! (j mod Parallel.num_instances_ p) = Some m'
              ∧ (NewPgImp junk m' d).1.1 = None) →
  Parallel.buffer_pool_manager_ p !! (i mod Parallel.num_instances_ p) = Some m →
  (NewPgImp junk m d).1.1 = Some (pid, f) →
  Parallel.NewPg_loop junk (pre ++ i :: rest) p d
  = (Some (i mod Parallel.num_instances_ p, pid, f),
     Parallel.set_buffer_pool_manager
       (<[i mod Parallel.num_instances_ p := (NewPgImp junk m d).1.2]>
          (Parallel.buffer_pool_manager_ p)) p,
     (NewPgImp junk m d).2).
Proof.
  induction pre as [|j pre IH]; intros Hpre Hm Hok.
  - simpl. rewrite Hm.
    destruct (NewPgImp junk m d) as [[[[pid' f']|] m'] d']; simpl in *; [|done].
    by injection Hok as -> ->.
  - destruct (Hpre j) as (m' & Hm' & Hfail); [by left|].
    simpl. rewrite Hm', (NewPgImp_None junk m' d Hfail).
    rewrite (set_buffer_pool_manager_same p _ m' Hm').
    apply IH; [|done|done]. intros j' Hj'. apply Hpre. by right.
Qed.

(** X20.  [NewPgImp] of the parallel pool is first fit from shard 0.  In a
    pool whose vector holds its [num_instances_] instances: when no instance
    can give a page the call returns nothing and leaves pool and disk as they
    were; otherwise the page comes from the instance with the lowest position
    that can give one, and only that instance and the disk change, as its own
    [NewPgImp] changes them. *)
Theorem Parallel_NewPgImp_first_fit
    (junk : Z) (p : Parallel.ParallelBufferPoolManager) (d : DiskManager) :
  0 < Parallel.num_instances_ p →
  length (Parallel.buffer_pool_manager_ p) = Parallel.num_instances_ p →
  ((∀ k m, Parallel.buffer_pool_manager_ p !! k = Some m →
           (NewPgImp junk m d).1.1 = None) →
   Parallel.NewPgImp junk p d = (None, p, d))
  ∧ (∀ k m pid f,
       Parallel.buffer_pool_manager_ p !! k = Some m →
       (NewPgImp junk m d).1.1 = Some (pid, f) →
       (∀ j m', j < k → Parallel.buffer_pool_manager_ p !! j = Some m' →
                (NewPgImp junk m' d).1.1 = None) →
       Parallel.NewPgImp junk p d
       = (Some (k, pid, f),
          Parallel.set_buffer_pool_manager
            (<[k := (NewPgImp junk m d).1.2]> (Parallel.buffer_pool_manager_ p)) p,
          (NewPgImp junk m d).2)).
Proof.
  intros HN Hlen. split.
  - intros Hall. apply NewPg_loop_all_fail. intros i _.
    destruct (lookup_lt_is_Some_2 (Parallel.buffer_pool_manager_ p)
                (i mod Parallel.num_instances_ p)) as [m Hm].
    { rewrite Hlen. apply Nat.mod_upper_bound. lia. }
    exists m. split; [done|]. by apply (Hall (i mod Parallel.num_instances_ p) m).
  - intros k m pid f Hk Hok Hbefore.
    assert (Hlt : k < Parallel.num_instances_ p).
    { rewrite <- Hlen. by apply lookup_lt_Some in Hk. }
    unfold Parallel.NewPgImp.
    replace (seq 0 (Parallel.num_instances_ p + 1))
      with (seq 0 k ++ k :: seq (S k) (Parallel.num_instances_ p - k)).
    2:{ replace (Parallel.num_instances_ p + 1)
          with (k + S (Parallel.num_instances_ p - k)) by lia.
        by rewrite seq_app. }
    pose proof (NewPg_loop_first junk (seq 0 k)
                  (seq (S k) (Parallel.num_instances_ p - k)) k p d m pid f) as Hloop.
    rewrite (Nat.mod_small k (Parallel.num_instances_ p) Hlt) in Hloop.
    apply Hloop; [|done|done].
    intros j Hj. apply elem_of_seq in Hj.
    rewrite Nat.mod_small by lia.
    destruct (lookup_lt_is_Some_2 (Parallel.buffer_pool_manager_ p) j) as [m' Hm'];
      [lia|].
    exists m'. split; [done|]. apply (Hbefore j m'); [lia|done].
Qed.

Lemma Parallel_NewPgImp_first_fit_witness :
  let s := parallel_serve_all 0 (Parallel.new_ParallelBufferPoolManager 2 1, blank_disk)
             [NewPage] in
  (Parallel.NewPgImp 0 s.1 s.2).1.1 = Some (1, 1%Z, 0)
  ∧ Parallel.NewPgImp 0 (parallel_serve_all 0 s [NewPage]).1
      (parallel_serve_all 0 s [NewPage]).2
    = (None, (parallel_serve_all 0 s [NewPage]).1, (parallel_serve_all 0 s [NewPage]).2).
Proof.
  intros s. split.
  - destruct (Parallel_NewPgImp_first_fit 0 s.1 s.2) as [_ Hfirst].
    + vm_compute. lia.
    + vm_compute. reflexivity.
    + rewrite (Hfirst 1 (new_BufferPoolManagerInstance 1 2 1) 1%Z 0).
      * reflexivity.
      * vm_compute. reflexivity.
      * vm_compute. reflexivity.
      * intros j m' Hj Hm'. assert (j = 0) as -> by lia.
        vm_compute in Hm'. injection Hm' as <-. vm_compute. reflexivity.
  - destruct (Parallel_NewPgImp_first_fit 0 (parallel_serve_all 0 s [NewPage]).1
                (parallel_serve_all 0 s [NewPage]).2) as [Hnone _].
    + vm_compute. lia.
    + vm_compute. reflexivity.
    + apply Hnone. intros k m Hk.
      assert (Hlt : k < 2).
      { apply lookup_lt_Some in Hk. vm_compute in Hk. lia. }
      destruct k as [|[|k]]; [| |lia];
        vm_compute in Hk; injection Hk as <-; vm_compute; reflexivity.
Defined.

Lemma NewPg_loop_Some (junk : Z) (todo : list nat)
    (p p' : Parallel.ParallelBufferPoolManager) (d d' : DiskManager)
    (k : nat) (pid : Z) (f : nat) :
  shards_wf p →
  Parallel.NewPg_loop junk todo p d = (Some (k, pid, f), p', d') →
  ∃ m m' d0,
    shard_ok (Parallel.pool_size_ p) (Parallel.num_instances_ p) k m
    ∧ NewPgImp junk m d0 = (Some (pid, f), m', d')
    ∧ Parallel.buffer_pool_manager_ p' !! k = Some m'
    ∧ Parallel.num_instances_ p' = Parallel.num_instances_ p.
Proof.
  revert p d. induction todo as [|i rest IH]; intros p d Hwf; [discriminate|].
  simpl.
  destruct (Parallel.buffer_pool_manager_ p !! (i mod Parallel.num_instances_ p))
    as [m|] eqn:Hm; [|discriminate].
  pose proof (proj2 (proj2 Hwf) _ m Hm) as Hok.
  assert (Hok' : shard_ok (Parallel.pool_size_ p) (Parallel.num_instances_ p)
                   (i mod Parallel.num_instances_ p) (NewPgImp junk m d).1.2).
  { apply (shard_ok_serve junk _ _ _ (m, d) NewPage); [apply Hwf|done|done]. }
  destruct (NewPgImp junk m d) as [[[[pid0 f0]|] m'] d1] eqn:E; simpl in *.
  - intros [= <- <- <- <- <-]. exists m, m', d. split_and!; try done.
    simpl. apply list_lookup_insert_eq. by apply lookup_lt_Some in Hm.
  - intros Hloop. apply IH in Hloop; [|by apply shards_wf_insert].
    simpl in Hloop. exact Hloop.
Qed.

(** X19.  A new page belongs to the shard that made it.  On a pool reached
    from the constructor through requests with ids that are not negative, when
    [NewPgImp] returns shard [k], page id [pid] (within the range of a 32-bit
    [int]) and frame [f]: the id is not negative, [GetBufferPoolManager]
    routes [pid] to the instance at position [k], and frame [f] of that
    instance holds page [pid] with pin count 1.  So
    the fetch, unpin, flush or delete of [pid] that follows reaches the
    instance that holds the page. *)
Theorem Parallel_NewPgImp_page_routes_to_its_shard
    (junk : Z) (num_instances pool_size : nat) (d d' : DiskManager)
    (rs : list request) (p' : Parallel.ParallelBufferPoolManager)
    (k : nat) (pid : Z) (f : nat) :
  Forall id_nonneg rs →
  let s := parallel_serve_all junk
             (Parallel.new_ParallelBufferPoolManager num_instances pool_size, d) rs in
  Parallel.NewPgImp junk s.1 s.2 = (Some (k, pid, f), p', d') →
  (pid ≤ 2147483647)%Z →
  (0 ≤ pid)%Z
  ∧ Parallel.pool_id pid p' = k
  ∧ ∃ m', Parallel.GetBufferPoolManager pid p' = Some m'
          ∧ page_id_ (frame m' f) = pid
          ∧ pin_count_ (frame m' f) = 1%Z.
Proof.
  intros Hrs s Hnew _.
  assert (Hwf : shards_wf s.1).
  { apply shards_wf_parallel_serve_all; [done|apply shards_wf_new]. }
  apply NewPg_loop_Some in Hnew; [|done].
  destruct Hnew as (m & m' & d0 & Hok & Hm & Hk & Hnum).
  destruct Hok as (Hpwf & _ & _ & _ & Hpos & Hmod & _).
  destruct (NewPgImp_frame_effect junk pid m m' d0 d' f Hpwf Hm)
    as (-> & _ & Hid & Hpin & _).
  assert (Hroute : Parallel.pool_id (next_page_id_ m) p' = k).
  { unfold Parallel.pool_id. rewrite Hnum, Hmod. lia. }
  split_and!; [done|done|].
  exists m'. unfold Parallel.GetBufferPoolManager. by rewrite Hroute.
Qed.

Lemma Parallel_NewPgImp_page_routes_to_its_shard_witness :
  let s := parallel_serve_all 0 (Parallel.new_ParallelBufferPoolManager 2 1, blank_disk)
             [NewPage; UnpinPage 0 false; NewPage; UnpinPage 2 false] in
  ∃ pid, (Parallel.NewPgImp 0 s.1 s.2).1.1 = Some (0, pid, 0)
         ∧ Parallel.pool_id pid (Parallel.NewPgImp 0 s.1 s.2).1.2 = 0.
Proof.
  intros s. exists 4%Z. split; [vm_compute; reflexivity|].
  apply (Parallel_NewPgImp_page_routes_to_its_shard 0 2 1 blank_disk
           (Parallel.NewPgImp 0 s.1 s.2).2
           [NewPage; UnpinPage 0 false; NewPage; UnpinPage 2 false]
           (Parallel.NewPgImp 0 s.1 s.2).1.2 0 4 0).
  - repeat constructor; simpl; lia.
  - vm_compute. reflexivity.
  - lia.
Defined.

(** X21.  The four calls that name a page go to one shard and never fall
    outside the vector.  In a pool whose vector holds its [num_instances_]
    instances, for a page id that is not negative, position
    [page_id mod num_instances_] holds an instance ([at] does not throw);
    [FetchPgImp], [UnpinPgImp], [FlushPgImp] and [DeletePgImp] return what that
    instance returns and leave the disk as it leaves it, and in the vector
    only that position changes. *)
Theorem Parallel_page_calls_reach_one_shard
    (page_id : Z) (is_dirty : bool) (p : Parallel.ParallelBufferPoolManager)
    (d : DiskManager) :
  0 < Parallel.num_instances_ p →
  length (Parallel.buffer_pool_manager_ p) = Parallel.num_instances_ p →
  (0 ≤ page_id)%Z →
  let k := Z.to_nat (page_id mod Z.of_nat (Parallel.num_instances_ p)) in
  ∃ m,
    Parallel.buffer_pool_manager_ p !! k = Some m
    ∧ (let o := Parallel.FetchPgImp page_id p d in
       let i := FetchPgImp page_id m d in
       o.1.1 = (λ f, (k, f)) <$> i.1.1
       ∧ Parallel.buffer_pool_manager_ o.1.2
         = <[k := i.1.2]> (Parallel.buffer_pool_manager_ p)
       ∧ o.2 = i.2)
    ∧ (let o := Parallel.UnpinPgImp page_id is_dirty p d in
       let i := UnpinPgImp page_id is_dirty m d in
       o.1.1 = i.1.1
       ∧ Parallel.buffer_pool_manager_ o.1.2
         = <[k := i.1.2]> (Parallel.buffer_pool_manager_ p)
       ∧ o.2 = i.2)
    ∧ (let o := Parallel.FlushPgImp page_id p d in
       let i := FlushPgImp page_id m d in
       o.1.1 = i.1.1
       ∧ Parallel.buffer_pool_manager_ o.1.2
         = <[k := i.1.2]> (Parallel.buffer_pool_manager_ p)
       ∧ o.2 = i.2)
    ∧ (let o := Parallel.DeletePgImp page_id p d in
       let i := DeletePgImp page_id m d in
       o.1.1 = i.1.1
       ∧ Parallel.buffer_pool_manager_ o.1.2
         = <[k := i.1.2]> (Parallel.buffer_pool_manager_ p)
       ∧ o.2 = i.2).
Proof.
  intros HN Hlen Hpos k.
  destruct (lookup_lt_is_Some_2 (Parallel.buffer_pool_manager_ p) k) as [m Hm].
  { rewrite Hlen. apply (pool_id_lt page_id p HN). }
  exists m. split; [done|].
  assert (Hget : Parallel.GetBufferPoolManager page_id p = Some m) by exact Hm.
  unfold Parallel.FetchPgImp, Parallel.UnpinPgImp, Parallel.FlushPgImp,
    Parallel.DeletePgImp.
  rewrite Hget. simpl. split_and!; reflexivity.
Qed.

Lemma Parallel_page_calls_reach_one_shard_witness :
  let s := parallel_serve_all 0 (Parallel.new_ParallelBufferPoolManager 2 1, blank_disk)
             [NewPage; NewPage] in
  (Parallel.UnpinPgImp 1 false s.1 s.2).1.1 = true
  ∧ (Parallel.FetchPgImp 3 s.1 s.2).1.1 = None.
Proof.
  intros s.
  destruct (Parallel_page_calls_reach_one_shard 1 false s.1 s.2)
    as (m1 & Hm1 & _ & (Hunpin & _) & _).
  { vm_compute. lia. }
  { vm_compute. reflexivity. }
  { lia. }
  destruct (Parallel_page_calls_reach_one_shard 3 false s.1 s.2)
    as (m3 & Hm3 & (Hfetch & _) & _).
  { vm_compute. lia. }
  { vm_compute. reflexivity. }
  { lia. }
  vm_compute in Hm1. injection Hm1 as <-.
  vm_compute in Hm3. injection Hm3 as <-.
  split.
  - rewrite Hunpin. vm_compute. reflexivity.
  - rewrite Hfetch. vm_compute. reflexivity.
Defined.

(** X22.  [FlushAllPgsImp] of the parallel pool reaches every instance: the
    vector keeps its length, and afterwards every instance has an empty page
    table and all its frames on the free list, in order. *)
Theorem Parallel_FlushAllPgsImp_empties_every_shard
    (p : Parallel.ParallelBufferPoolManager) (d : DiskManager) :
  let p' := (Parallel.FlushAllPgsImp p d).1 in
  length (Parallel.buffer_pool_manager_ p') = length (Parallel.buffer_pool_manager_ p)
  ∧ ∀ k m', Parallel.buffer_pool_manager_ p' !! k = Some m' →
      page_table_ m' = ∅
      ∧ free_list_ m' = seq 0 (pool_size_ m')
      ∧ ∃ m, Parallel.buffer_pool_manager_ p !! k = Some m
             ∧ pool_size_ m' = pool_size_ m.
Proof.
  destruct (flush_shards_spec (Parallel.buffer_pool_manager_ p) [] d)
    as (Hlen & _ & Hnew).
  simpl in *. split; [done|].
  intros k m' Hk.
  destruct (lookup_lt_is_Some_2 (Parallel.buffer_pool_manager_ p) k) as [m Hm].
  { apply lookup_lt_Some in Hk. lia. }
  destruct (Hnew k m Hm) as [d0 Hd0]. rewrite Hk in Hd0. injection Hd0 as ->.
  split_and!; [done|done|]. by exists m.
Qed.

(** ** The replacer inside a pool instance *)

Lemma NoDup_bounded_length (l : list nat) (n : nat) :
  NoDup l → (∀ x, x ∈ l → x < n) → length l ≤ n.
Proof.
  intros Hnd Hlt. transitivity (length (seq 0 n)); [|by rewrite length_seq].
  apply submseteq_length, NoDup_submseteq; [done|].
  intros x Hx. apply elem_of_seq. specialize (Hlt x Hx). lia.
Qed.

Lemma max_pages_serve (junk : Z) (s : BufferPoolManagerInstance * DiskManager)
    (r : request) :
  max_pages_ (replacer (serve junk s r).1) = max_pages_ (replacer s.1).
Proof.
  assert (HPin : ∀ f r0, max_pages_ (Pin f r0) = max_pages_ r0).
  { intros f r0. unfold Pin. by destruct (decide (f ∈ map_ r0)). }
  assert (HUnpin : ∀ f r0, max_pages_ (Unpin f r0) = max_pages_ r0).
  { intros f r0. unfold Unpin. destruct (decide (f ∈ map_ r0)); [done|].
    by destruct (decide (length (replacer_ r0) < max_pages_ r0)). }
  assert (Hpick : ∀ b f b1, pick_frame b = Some (f, b1) →
            max_pages_ (replacer b1) = max_pages_ (replacer b)).
  { intros b f b1. unfold pick_frame, Victim.
    destruct (free_list_ b) as [|x rest].
    - destruct (replacer_ (replacer b)) as [|y l]; [discriminate|].
      by intros [= <- <-].
    - by intros [= <- <-]. }
  destruct s as [b d]. destruct r; simpl.
  - unfold FetchPgImp. destruct (page_table_ b !! page_id); simpl; [by rewrite HPin|].
    destruct (pick_frame b) as [[f b1]|] eqn:E; simpl; [|done].
    rewrite HPin. simpl. by apply (Hpick b f).
  - unfold NewPgImp. destruct (decide (pinned_num b = pool_size_ b)); simpl; [done|].
    destruct (pick_frame b) as [[f b1]|] eqn:E; simpl; [|done].
    rewrite HPin. simpl. by apply (Hpick b f).
  - unfold UnpinPgImp. destruct (page_table_ b !! page_id); simpl; [|done].
    destruct (decide (pin_count_ (frame b n) > 0)%Z); simpl; [|done].
    by rewrite HUnpin.
  - unfold FlushPgImp. destruct (page_table_ b !! page_id); simpl; [|done].
    by destruct (decide (page_id = INVALID_PAGE_ID)).
  - done.
  - unfold DeletePgImp. destruct (page_table_ b !! page_id); simpl; [|done].
    by destruct (decide (pin_count_ (frame b n) = 0%Z)).
Qed.

Lemma max_pages_serve_all (junk : Z) (rs : list request)
    (s : BufferPoolManagerInstance * DiskManager) :
  max_pages_ (replacer (serve_all junk s rs).1) = max_pages_ (replacer s.1).
Proof.
  revert s. induction rs as [|r rs IH]; intros s; [done|].
  simpl. rewrite IH. apply max_pages_serve.
Qed.

(** X23.  The size test in [Unpin] never turns a frame away: on every
    reachable state, when [UnpinPgImp] returns [true] for a page, the frame of
    that page is in the replacer afterwards. *)
Theorem UnpinPgImp_frame_reaches_replacer
    (junk page_id : Z) (is_dirty : bool) (pool_size : nat)
    (num_instances instance_index : Z) (d : DiskManager) (rs : list request) :
  let s := serve_all junk
             (new_BufferPoolManagerInstance pool_size num_instances instance_index, d)
             rs in
  (UnpinPgImp page_id is_dirty s.1 s.2).1.1 = true →
  ∃ f, page_table_ s.1 !! page_id = Some f
       ∧ f ∈ replacer_ (replacer (UnpinPgImp page_id is_dirty s.1 s.2).1.2).
Proof.
  intros s.
  assert (Hwf : pool_wf s.1) by apply pool_wf_reachable.
  assert (Hsize : pool_size_ s.1 = pool_size) by apply pool_size_serve_all.
  assert (Hmax : max_pages_ (replacer s.1) = pool_size) by apply max_pages_serve_all.
  unfold UnpinPgImp.
  destruct (page_table_ s.1 !! page_id) as [f|] eqn:Hres; [|discriminate].
  destruct (decide (pin_count_ (frame s.1 f) > 0)%Z); [|discriminate].
  intros _. exists f. split; [done|]. simpl.
  destruct (wf_lru s.1 Hwf) as [Hnd Hmap].
  unfold Unpin. destruct (decide (f ∈ map_ (replacer s.1))) as [Hin|Hout].
  - by apply Hmap.
  - rewrite decide_True; [simpl; apply elem_of_app; right; by left|].
    assert (Hout' : f ∉ replacer_ (replacer s.1)) by (by rewrite <- Hmap).
    assert (Hlen : length (f :: replacer_ (replacer s.1)) ≤ pool_size).
    { apply NoDup_bounded_length; [by apply NoDup_cons|].
      intros x Hx. rewrite <- Hsize. apply elem_of_cons in Hx.
      destruct Hx as [->|Hx]; [by apply (wf_table s.1 Hwf page_id)|].
      by apply (wf_replacer s.1 Hwf). }
    simpl in Hlen. lia.
Qed.

Lemma UnpinPgImp_frame_reaches_replacer_witness :
  let s := serve_all 0 (fresh 2) [NewPage; NewPage; UnpinPage 1 false] in
  ∃ f, page_table_ s.1 !! 0%Z = Some f
       ∧ f ∈ replacer_ (replacer (UnpinPgImp 0 true s.1 s.2).1.2).
Proof.
  intros s.
  apply (UnpinPgImp_frame_reaches_replacer 0 0 true 2 1 0 blank_disk
           [NewPage; NewPage; UnpinPage 1 false]).
  vm_compute. reflexivity.
Defined.

(** ** DeletePgImp twice *)

(** X24.  Deleting is idempotent: a second [DeletePgImp] of the same page
    right after the first returns what the first returned and leaves the
    instance as the first left it; on the disk it only adds one more
    deallocation call. *)
Theorem DeletePgImp_twice
    (page_id : Z) (b : BufferPoolManagerInstance) (d : DiskManager) :
  let o1 := DeletePgImp page_id b d in
  let o2 := DeletePgImp page_id o1.1.2 o1.2 in
  o2.1.1 = o1.1.1 ∧ o2.1.2 = o1.1.2 ∧ o2.2 = DeallocatePage page_id o1.2.
Proof.
  intros o1 o2.
  destruct (page_table_ b !! page_id) as [f|] eqn:Hres.
  - destruct (decide (pin_count_ (frame b f) = 0%Z)) as [Hz|Hnz].
    + assert (H1 : page_table_ o1.1.2 !! page_id = None ∧ o1.1.1 = true).
      { unfold o1, DeletePgImp. rewrite Hres, decide_True by done. simpl.
        split; [apply lookup_delete_eq|done]. }
      destruct H1 as [Hgone Htrue].
      assert (H2 : o2 = (true, o1.1.2, DeallocatePage page_id o1.2)).
      { unfold o2, DeletePgImp. by rewrite Hgone. }
      rewrite H2. simpl. by rewrite Htrue.
    + assert (H1 : o1 = (false, b, DeallocatePage page_id d)).
      { unfold o1, DeletePgImp. rewrite Hres. by rewrite decide_False. }
      unfold o2. rewrite H1. simpl. unfold DeletePgImp.
      rewrite Hres. by rewrite decide_False.
  - assert (H1 : o1 = (true, b, DeallocatePage page_id d)).
    { unfold o1, DeletePgImp. by rewrite Hres. }
    unfold o2. rewrite H1. simpl. unfold DeletePgImp. by rewrite Hres.
Qed.
